(** * Spotify Billboard Bridge: a shallow embedding of [app.py]

    The service scrapes a chart page, looks every entry up in a remote
    catalog and assembles the hits into a playlist.  Every outbound call
    (the HTTP fetch, the OAuth exchange, the catalog API, the sleep between
    searches) is an event answered by an environment; the Python code is a
    computation in a small exception-and-trace monad over those events. *)

From Stdlib Require Import List String Ascii Bool Arith Lia ZArith.
Import ListNotations.
Local Open Scope string_scope.
Local Open Scope list_scope.
Local Open Scope nat_scope.

Set Implicit Arguments.

(** ** Text

    A Python [str] is modelled as a [string], a character being a code
    point below 256.  [str.strip] and the regex classes [\w] and [\s]
    consult Python's character tables, which are not part of the
    repository: they are the two fields of [CharTables]. *)

Class CharTables := {
  isspace : ascii -> bool;   (* str.isspace, the class \s *)
  isalnum : ascii -> bool    (* str.isalnum; \w is isalnum or '_' *)
}.

Definition in_range (lo hi : nat) (c : ascii) : bool :=
  (lo <=? nat_of_ascii c) && (nat_of_ascii c <=? hi).

(** Python's tables on the code points below 256. *)
#[global] Instance latin1_tables : CharTables := {|
  isspace c := in_range 9 13 c || in_range 28 32 c
               || in_range 133 133 c || in_range 160 160 c;
  isalnum c := in_range 48 57 c || in_range 65 90 c || in_range 97 122 c
               || in_range 170 170 c || in_range 178 179 c
               || in_range 181 181 c || in_range 185 186 c
               || in_range 188 190 c || in_range 192 214 c
               || in_range 216 246 c || in_range 248 255 c
|}.

Definition dquote : string := String (ascii_of_nat 34) EmptyString.

Definition truthy_str (s : string) : bool :=
  match s with EmptyString => false | _ => true end.

Definition truthy_opt_str (o : option string) : bool :=
  match o with Some s => truthy_str s | None => false end.

Definition nonempty {A : Type} (l : list A) : bool :=
  match l with [] => false | _ => true end.

Fixpoint str_filter (keep : ascii -> bool) (s : string) : string :=
  match s with
  | EmptyString => EmptyString
  | String c r => if keep c then String c (str_filter keep r)
                  else str_filter keep r
  end.

Section Text.
Context `{CharTables}.

Fixpoint lstrip (s : string) : string :=
  match s with
  | EmptyString => EmptyString
  | String c r => if isspace c then lstrip r else s
  end.

Fixpoint rstrip (s : string) : string :=
  match s with
  | EmptyString => EmptyString
  | String c r =>
      match rstrip r with
      | EmptyString => if isspace c then EmptyString
                       else String c EmptyString
      | r' => String c r'
      end
  end.

(** [s.strip()] *)
Definition strip (s : string) : string := lstrip (rstrip s).

(** the class [\w] *)
Definition word_char (c : ascii) : bool :=
  isalnum c || Ascii.eqb c "_"%char.

(** [re.sub(r'[^\w\s]', '', s)] *)
Definition clean (s : string) : string :=
  str_filter (fun c => word_char c || isspace c) s.

End Text.

(** ** Data *)

Module Song.
Record t := mk { position : nat; title : string; artist : string }.
End Song.

(** What the scraper reads of a matched element: its [get_text()], and,
    when it has a parent, the [get_text()] of each element of
    [parent.find_all(['p', 'span', 'div'])], in document order. *)
Record Element := {
  get_text : string;
  parent_find_all : option (list string)
}.

(** What the scraper reads of the parsed page. *)
Record Soup := {
  select : string -> list Element;
  find_all_h3 : list Element
}.

Record TokenInfo := {
  access_token : string;
  expires_at : Z;
  refresh_token : string
}.

(** A track object of the catalog's search result. *)
Module Track.
Record t := mk {
  uri : string; name : string; artists : list string; popularity : Z
}.
End Track.

(** The dict [search_track] returns. *)
Module TrackInfo.
Record t := mk {
  uri : string; name : string; artist : string; popularity : Z
}.
End TrackInfo.

Module Playlist.
Record t := mk { id : string; name : string; external_url : string }.
End Playlist.

Record User := { user_id : string; display_name : string }.

(** ** Events *)

Inductive Call :=
| requests_get (url : string)
| get_access_token (code : string)
| sp_search (q : string)
| sp_current_user
| sp_user_playlist_create (user name description : string) (public : bool)
| sp_playlist_add_items (playlist_id : string) (items : list string)
| time_sleep.

Inductive Reply :=
| raises
| html_reply (soup : Soup)
| token_reply (t : TokenInfo)
| tracks_reply (items : list Track.t)
| user_reply (u : User)
| playlist_reply (p : Playlist.t)
| none_reply.

(** The outside world answers a call knowing the calls made so far. *)
Definition Env := list Call -> Call -> Reply.

(** ** The monad: a trace of calls, and Python exceptions *)

Inductive Exc (A : Type) := Ok (a : A) | Raised.
Arguments Raised {A}.

Definition M (A : Type) := list Call -> Exc A * list Call.

Definition ret {A} (a : A) : M A := fun h => (Ok a, h).
Definition raise {A} : M A := fun h => (Raised, h).
Definition bind {A B} (m : M A) (k : A -> M B) : M B :=
  fun h => match m h with
           | (Ok a, h') => k a h'
           | (Raised, h') => (Raised, h')
           end.
(** [try: m  except Exception: handler] *)
Definition try_except {A} (m handler : M A) : M A :=
  fun h => match m h with
           | (Ok a, h') => (Ok a, h')
           | (Raised, h') => handler h'
           end.

Notation "x <- m ;; k" := (bind m (fun x => k))
  (at level 61, m at next level, right associativity).
Notation "m ;;; k" := (bind m (fun _ => k))
  (at level 61, right associativity).

(** [for x in l: body x] *)
Fixpoint for_each {A} (l : list A) (body : A -> M unit) : M unit :=
  match l with
  | [] => ret tt
  | x :: r => body x ;;; for_each r body
  end.

(** [range(start, stop, step)] for a positive step; [stop] bounds the
    number of iterations. *)
Fixpoint range_fuel (fuel start stop step : nat) : list nat :=
  match fuel with
  | 0 => []
  | S fuel' => if start <? stop
               then start :: range_fuel fuel' (start + step) stop step
               else []
  end.
Definition range (start stop step : nat) : list nat :=
  range_fuel stop start stop step.

(** [l[i:j]] *)
Definition slice {A} (l : list A) (i j : nat) : list A :=
  firstn (j - i) (skipn i l).

Definition outcome (r : Reply) : Exc Reply :=
  match r with
  | raises => Raised
  | _ => Ok r
  end.

Section Calls.
Variable env : Env.

(** A call is recorded, then returns the reply or raises. *)
Definition call (c : Call) : M Reply :=
  fun h => (outcome (env h c), h ++ [c]).

(** [time.sleep(0.1)]: recorded, never raises. *)
Definition sleep : M unit := fun h => (Ok tt, h ++ [time_sleep]).

End Calls.

(** ** class BillboardScraper *)

Module BillboardScraper.
Section Methods.
Context `{CharTables}.
Variable env : Env.

Definition base_url : string := "https://www.billboard.com/charts/hot-100".

Definition selectors : list string :=
  [ "li ul li h3"; "h3.c-title"; ".chart-list__item h3";
    ".o-chart-results-list__item h3" ].

(** [requests.get(url, headers=...)], [raise_for_status()] and
    [BeautifulSoup(response.text, 'html.parser')]: one event, which raises
    or yields the parsed page. *)
Definition fetch_soup (url : string) : M Soup :=
  r <- call env (requests_get url) ;;
  match r with html_reply soup => ret soup | _ => raise end.

(** The selector loop: [song_elements] ends as the first non-empty
    selection, or empty. *)
Fixpoint select_first (soup : Soup) (sels : list string) : list Element :=
  match sels with
  | [] => []
  | s :: rest => let found := select soup s in
                 if nonempty found then found else select_first soup rest
  end.

(** The sibling loop: the first text that is non-empty, differs from the
    title and is shorter than 100 characters. *)
Fixpoint find_artist (title : string) (siblings : list string)
  : option string :=
  match siblings with
  | [] => None
  | s :: rest =>
      let text := strip s in
      if truthy_str text && negb (String.eqb text title)
         && (String.length text <? 100)
      then Some text else find_artist title rest
  end.

Definition artist_of (title : string) (element : Element) : string :=
  match parent_find_all element with
  | Some siblings =>
      match find_artist title siblings with
      | Some a => a
      | None => "Unknown Artist"
      end
  | None => "Unknown Artist"
  end.

(** [title and len(title) > 1] *)
Definition valid_title (title : string) : bool :=
  truthy_str title && (1 <? String.length title).

(** [for i, element in enumerate(...)], [i] being the index of the head. *)
Fixpoint chart_loop (i : nat) (elements : list Element) : list Song.t :=
  match elements with
  | [] => []
  | element :: rest =>
      let title := strip (get_text element) in
      if valid_title title
      then Song.mk (i + 1) title (artist_of title element)
           :: chart_loop (S i) rest
      else chart_loop (S i) rest
  end.

Definition song_elements (soup : Soup) : list Element :=
  let found := select_first soup selectors in
  if nonempty found then found else find_all_h3 soup.

Definition parse_chart (soup : Soup) : list Song.t :=
  firstn 100 (chart_loop 0 (firstn 100 (song_elements soup))).

Definition get_chart (date : option string) : M (list Song.t) :=
  try_except
    (let url := match date with
                | Some d => if truthy_str d
                            then (base_url ++ "/" ++ d)%string
                            else base_url
                | None => base_url
                end in
     soup <- fetch_soup url ;;
     ret (parse_chart soup))
    (ret []).

End Methods.
End BillboardScraper.

(** ** class SpotifyService *)

(** [spotipy.Spotify(auth=...)] *)
Record Spotify := { auth : string }.

Module SpotifyService.

Record t := mk { sp : option Spotify }.

(** [__init__] *)
Definition init : t := {| sp := None |}.

Section Methods.
Context `{CharTables}.
Variable env : Env.

Definition authenticate (self : t) (code : string)
  : M (option TokenInfo * t) :=
  try_except
    (r <- call env (get_access_token code) ;;
     match r with
     | token_reply token_info =>
         ret (Some token_info,
              {| sp := Some {| auth := access_token token_info |} |})
     | _ => raise
     end)
    (ret (None, self)).

Definition queries (title artist : string) : list string :=
  [ ("track:" ++ dquote ++ title ++ dquote
     ++ " artist:" ++ dquote ++ artist ++ dquote)%string;
    (dquote ++ title ++ dquote ++ " " ++ dquote ++ artist ++ dquote)%string;
    (title ++ " " ++ artist)%string;
    ("track:" ++ title ++ " artist:" ++ artist)%string ].

(** [self.sp.search(q=query, type='track', limit=5)['tracks']['items']] *)
Definition search (query : string) : M (list Track.t) :=
  r <- call env (sp_search query) ;;
  match r with tracks_reply items => ret items | _ => raise end.

(** The returned dict; [track['artists'][0]] raises on no artist. *)
Definition track_info (track : Track.t) : M TrackInfo.t :=
  match Track.artists track with
  | a :: _ => ret (TrackInfo.mk (Track.uri track) (Track.name track) a
                                (Track.popularity track))
  | [] => raise
  end.

Fixpoint search_loop (qs : list string) : M (option TrackInfo.t) :=
  match qs with
  | [] => ret None
  | query :: rest =>
      items <- search query ;;
      match items with
      | track :: _ => info <- track_info track ;; ret (Some info)
      | [] => search_loop rest
      end
  end.

Definition search_track (self : t) (title artist : string)
  : M (option TrackInfo.t) :=
  match sp self with
  | None => ret None
  | Some _ =>
      try_except
        (let title := clean title in
         let artist := clean artist in
         search_loop (queries title artist))
        (ret None)
  end.

Definition current_user : M User :=
  r <- call env sp_current_user ;;
  match r with user_reply u => ret u | _ => raise end.

Definition user_playlist_create (user name description : string)
  (public : bool) : M Playlist.t :=
  r <- call env (sp_user_playlist_create user name description public) ;;
  match r with playlist_reply p => ret p | _ => raise end.

Definition create_playlist (self : t) (name description : string)
  (public : bool) : M (option Playlist.t) :=
  match sp self with
  | None => ret None
  | Some _ =>
      try_except
        (u <- current_user ;;
         playlist <- user_playlist_create (user_id u) name description
                                          public ;;
         ret (Some playlist))
        (ret None)
  end.

Definition chunk_size : nat := 100.

Definition add_tracks_to_playlist (self : t) (playlist_id : string)
  (track_uris : list string) : M bool :=
  match sp self with
  | None => ret false
  | Some _ =>
      try_except
        (for_each (range 0 (List.length track_uris) chunk_size)
           (fun i =>
              let chunk := slice track_uris i (i + chunk_size) in
              call env (sp_playlist_add_items playlist_id chunk) ;;;
              ret tt) ;;;
         ret true)
        (ret false)
  end.

End Methods.
End SpotifyService.

(** ** The routes *)

Record Session := { token_info : option TokenInfo }.

Record Stats := { total_songs : nat; found : nat; missing : nat }.

(** [{**song, 'spotify_name': ..., 'spotify_artist': ...}] *)
Record FoundTrack := {
  song : Song.t; spotify_name : string; spotify_artist : string
}.

Inductive Json :=
| error_body (error : string)
| message_body (status message : string)
| playlist_body (status : string) (playlist : Playlist.t) (stats : Stats)
    (found_tracks : list FoundTrack) (missing_tracks : list Song.t)
| status_body (authenticated : bool) (user : option User)
| track_found (track : TrackInfo.t)
| track_not_found.

Record Response := { body : Json; http_status : nat }.

Definition jsonify (j : Json) : Response :=
  {| body := j; http_status := 200 |}.
Definition jsonify_with (j : Json) (code : nat) : Response :=
  {| body := j; http_status := code |}.

(** The JSON body of [POST /api/create_playlist]. *)
Module CreateRequest.
Record t := mk {
  date : option string; playlist_name : option string; public : option bool
}.
End CreateRequest.

(** The query string of [GET /api/search_track]. *)
Module SearchArgs.
Record t := mk { title : option string; artist : option string }.
End SearchArgs.

Definition or_default (o : option string) (d : string) : string :=
  match o with
  | Some s => if truthy_str s then s else d
  | None => d
  end.

Section Routes.
Context `{CharTables}.
Variable env : Env.

(** [/callback]: the response, the session and the service afterwards. *)
Definition callback (session : Session) (spotify_service : SpotifyService.t)
  (code : option string) : M (Response * Session * SpotifyService.t) :=
  let failed := (jsonify_with (message_body "error" "Authentication failed")
                   400, session, spotify_service) in
  match code with
  | Some c =>
      if truthy_str c then
        r <- SpotifyService.authenticate env spotify_service c ;;
        match r with
        | (Some token_info, service') =>
            ret (jsonify (message_body "success" "Authentication successful"),
                 {| token_info := Some token_info |}, service')
        | (None, service') => ret (fst (fst failed), session, service')
        end
      else ret failed
  | None => ret failed
  end.

(** The search loop of [/api/create_playlist], on the three lists it
    appends to. *)
Fixpoint search_songs (spotify_service : SpotifyService.t)
  (songs : list Song.t) (found_tracks : list FoundTrack)
  (missing_tracks : list Song.t) (track_uris : list string)
  : M (list FoundTrack * list Song.t * list string) :=
  match songs with
  | [] => ret (found_tracks, missing_tracks, track_uris)
  | song :: rest =>
      track_info <- SpotifyService.search_track env spotify_service
                      (Song.title song) (Song.artist song) ;;
      let '(found_tracks, missing_tracks, track_uris) :=
        match track_info with
        | Some info =>
            (found_tracks ++ [ {| song := song;
                                 spotify_name := TrackInfo.name info;
                                 spotify_artist := TrackInfo.artist info |} ],
             missing_tracks,
             track_uris ++ [TrackInfo.uri info])
        | None => (found_tracks, missing_tracks ++ [song], track_uris)
        end in
      sleep ;;;
      search_songs spotify_service rest found_tracks missing_tracks
                   track_uris
  end.

(** [data.get('public', True)] *)
Definition public_of (data : CreateRequest.t) : bool :=
  match CreateRequest.public data with
  | Some b => b
  | None => true
  end.

(** The playlist name: the one given, or
    [f"Billboard Hot 100 - {chart_date}"]. *)
Definition playlist_name_of (data : CreateRequest.t) (today : string)
  : string :=
  or_default (CreateRequest.playlist_name data)
    ("Billboard Hot 100 - " ++ or_default (CreateRequest.date data) today).

Definition description_of (data : CreateRequest.t) : string :=
  "Billboard Hot 100 chart from "
  ++ or_default (CreateRequest.date data) "current week"
  ++ ". Created with Spotify Billboard Bridge.".

(** [/api/create_playlist]; [today] is
    [datetime.now().strftime("%Y-%m-%d")]. *)
Definition create_playlist (session : Session)
  (spotify_service : SpotifyService.t) (data : CreateRequest.t)
  (today : string) : M Response :=
  match token_info session with
  | None => ret (jsonify_with (error_body "Not authenticated with Spotify")
                              401)
  | Some _ =>
      let date := CreateRequest.date data in
      let public := public_of data in
      songs <- BillboardScraper.get_chart env date ;;
      if negb (nonempty songs)
      then ret (jsonify_with (error_body "Failed to fetch Billboard chart")
                             500)
      else
        let playlist_name := playlist_name_of data today in
        searched <- search_songs spotify_service songs [] [] [] ;;
        let '(found_tracks, missing_tracks, track_uris) := searched in
        let description := description_of data in
        playlist <- SpotifyService.create_playlist env spotify_service
                      playlist_name description public ;;
        match playlist with
        | None =>
            ret (jsonify_with
                   (error_body "Failed to create Spotify playlist") 500)
        | Some playlist =>
            success <- (if nonempty track_uris
                        then SpotifyService.add_tracks_to_playlist env
                               spotify_service (Playlist.id playlist)
                               track_uris
                        else ret false) ;;
            ret (jsonify
                   (playlist_body
                      (if success then "success" else "partial_success")
                      playlist
                      {| total_songs := List.length songs;
                         found := List.length found_tracks;
                         missing := List.length missing_tracks |}
                      found_tracks missing_tracks))
        end
  end.

(** [/api/status] *)
Definition status (session : Session) (spotify_service : SpotifyService.t)
  : M Response :=
  let authenticated := match token_info session with
                       | Some _ => true
                       | None => false
                       end in
  match authenticated, SpotifyService.sp spotify_service with
  | true, Some _ =>
      try_except
        (user_info <- SpotifyService.current_user env ;;
         ret (jsonify (status_body authenticated (Some user_info))))
        (ret (jsonify (status_body false None)))
  | _, _ => ret (jsonify (status_body authenticated None))
  end.

(** [/api/search_track] *)
Definition search_track (session : Session)
  (spotify_service : SpotifyService.t) (args : SearchArgs.t) : M Response :=
  match token_info session with
  | None => ret (jsonify_with (error_body "Not authenticated") 401)
  | Some _ =>
      match SearchArgs.title args, SearchArgs.artist args with
      | Some title, Some artist =>
          if negb (truthy_str title) || negb (truthy_str artist)
          then ret (jsonify_with (error_body "Title and artist required")
                                 400)
          else
            track_info <- SpotifyService.search_track env spotify_service
                            title artist ;;
            match track_info with
            | Some info => ret (jsonify (track_found info))
            | None => ret (jsonify track_not_found)
            end
      | _, _ => ret (jsonify_with (error_body "Title and artist required")
                                  400)
      end
  end.

End Routes.

(** ** The life of a service object

    The methods that can be invoked on the one [SpotifyService] object, and
    what an invocation returned as far as authentication is concerned. *)

Inductive Op :=
| op_authenticate (code : string)
| op_search_track (title artist : string)
| op_create_playlist (name description : string) (public : bool)
| op_add_tracks (playlist_id : string) (track_uris : list string).

Section Life.
Context `{CharTables}.
Variable env : Env.

(** One invocation: the credential it returned, if it is an
    authentication that succeeded, and the object afterwards. *)
Definition invoke (self : SpotifyService.t) (op : Op)
  : M (option TokenInfo * SpotifyService.t) :=
  match op with
  | op_authenticate code => SpotifyService.authenticate env self code
  | op_search_track title artist =>
      SpotifyService.search_track env self title artist ;;; ret (None, self)
  | op_create_playlist name description public =>
      SpotifyService.create_playlist env self name description public ;;;
      ret (None, self)
  | op_add_tracks playlist_id track_uris =>
      SpotifyService.add_tracks_to_playlist env self playlist_id track_uris ;;;
      ret (None, self)
  end.

Fixpoint invoke_all (self : SpotifyService.t) (ops : list Op)
  : M (list (option TokenInfo) * SpotifyService.t) :=
  match ops with
  | [] => ret ([], self)
  | op :: rest =>
      r <- invoke self op ;;
      rs <- invoke_all (snd r) rest ;;
      ret (fst r :: fst rs, snd rs)
  end.

End Life.

(** ** The chart route

    [/api/charts].  [datetime.strptime(date, '%Y-%m-%d')] is the standard
    library's: [strptime_ok date] tells whether it returns (rather than
    raises [ValueError]). *)

Inductive ChartsJson :=
| charts_error (error : string)
| charts_body (date : string) (total_songs : nat) (songs : list Song.t).

Record ChartsResponse := { charts_json : ChartsJson; charts_status : nat }.

Section ChartRoute.
Context `{CharTables}.
Variable env : Env.
Variable strptime_ok : string -> bool.

Definition get_charts (date : option string) : M ChartsResponse :=
  let fetch : M ChartsResponse :=
    songs <- BillboardScraper.get_chart env date ;;
    if negb (nonempty songs)
    then ret {| charts_json := charts_error "Failed to fetch chart data";
                charts_status := 500 |}
    else ret {| charts_json := charts_body (or_default date "current")
                                 (List.length songs) songs;
                charts_status := 200 |} in
  match date with
  | Some d =>
      if truthy_str d
      then if strptime_ok d
           then fetch
           else ret {| charts_json :=
                         charts_error "Invalid date format. Use YYYY-MM-DD";
                       charts_status := 400 |}
      else fetch
  | None => fetch
  end.

End ChartRoute.

(** * The command-line client: [cli_client.py] *)

Module Cli.

(** ** JSON values, as [response.json()] returns them

    [JNull] is Python's [None]; the fields of a [JObj] are the items of the
    dict, under distinct keys; numbers are the integers. *)

#[local] Unset Elimination Schemes.
Inductive json :=
| JNull
| JBool (b : bool)
| JNum (n : Z)
| JStr (s : string)
| JList (items : list json)
| JObj (fields : list (string * json)).
#[local] Set Elimination Schemes.

Definition truthy (v : json) : bool :=
  match v with
  | JNull => false
  | JBool b => b
  | JNum n => negb (n =? 0)%Z
  | JStr s => truthy_str s
  | JList items => nonempty items
  | JObj fields => nonempty fields
  end.

Fixpoint lookup (key : string) (fields : list (string * json))
  : option json :=
  match fields with
  | [] => None
  | (k, v) :: rest => if String.eqb k key then Some v else lookup key rest
  end.

(** [v.get(key, default)]: an [AttributeError] unless [v] is a dict. *)
Definition dict_get (v : json) (key : string) (default : json)
  : option json :=
  match v with
  | JObj fields => Some (match lookup key fields with
                         | Some x => x
                         | None => default
                         end)
  | _ => None
  end.

(** [v[key]] for a string key: a [KeyError] or a [TypeError] unless [v] is
    a dict with that key. *)
Definition getitem (v : json) (key : string) : option json :=
  match v with
  | JObj fields => lookup key fields
  | _ => None
  end.

(** [len(v)] *)
Definition len (v : json) : option nat :=
  match v with
  | JStr s => Some (String.length s)
  | JList items => Some (List.length items)
  | JObj fields => Some (List.length fields)
  | _ => None
  end.

Definition chars (s : string) : list json :=
  map (fun c => JStr (String c EmptyString)) (list_ascii_of_string s).

(** What [for x in v] goes through. *)
Definition iter (v : json) : option (list json) :=
  match v with
  | JStr s => Some (chars s)
  | JList items => Some items
  | JObj fields => Some (map (fun kv => JStr (fst kv)) fields)
  | _ => None
  end.

(** What [for x in v[:10]] goes through: a dict cannot be sliced. *)
Definition iter_first10 (v : json) : option (list json) :=
  match v with
  | JStr s => Some (firstn 10 (chars s))
  | JList items => Some (firstn 10 items)
  | _ => None
  end.

(** Whether [f"{v:2d}"] formats: the integers and the booleans do. *)
Definition formats_2d (v : json) : bool :=
  match v with
  | JNum _ | JBool _ => true
  | _ => false
  end.

(** ** Events *)

(** A printed line, piece by piece: literal text, [str()] of a value, a
    value under the format [:2d], the message of the exception caught. *)
Inductive Piece :=
| lit (s : string)
| val (v : json)
| val_2d (v : json)
| exc.

Inductive Call :=
| session_get (url : string) (params : list (string * string))
| session_post (url : string) (body : json)
| webbrowser_open (url : string)
| time_sleep
| print (line : list Piece).

(** A response carries its status code and its body, when that is JSON. *)
Inductive Reply :=
| raises
| response (status_code : nat) (body : option json)
| returns.

Definition Env := list Call -> Call -> Reply.

(** ** The monad, over these events *)

Definition M (A : Type) := list Call -> Exc A * list Call.

Definition ret {A} (a : A) : M A := fun h => (Ok a, h).
Definition raise {A} : M A := fun h => (Raised, h).
Definition bind {A B} (m : M A) (k : A -> M B) : M B :=
  fun h => match m h with
           | (Ok a, h') => k a h'
           | (Raised, h') => (Raised, h')
           end.
Definition try_except {A} (m handler : M A) : M A :=
  fun h => match m h with
           | (Ok a, h') => (Ok a, h')
           | (Raised, h') => handler h'
           end.

(** A partial operation: its value, or an exception. *)
Definition lift {A} (o : option A) : M A :=
  match o with Some a => ret a | None => raise end.

(** [print] and [time.sleep]: recorded, never raise. *)
Definition emit (c : Call) : M unit := fun h => (Ok tt, h ++ [c]).

Notation "x <~ m ;; k" := (bind m (fun x => k))
  (at level 61, m at next level, right associativity).
Notation "m ;;> k" := (bind m (fun _ => k))
  (at level 61, right associativity).

Fixpoint for_each {A} (l : list A) (body : A -> M unit) : M unit :=
  match l with
  | [] => ret tt
  | x :: r => body x ;;> for_each r body
  end.

(** [self]: the base address; the [requests.Session] is in the world. *)
Record t := mk { base_url : string }.

(** [SpotifyBillboardCLI()] *)
Definition default : t := {| base_url := "http://localhost:5000" |}.

Section Methods.
Variable env : Env.

Definition call (c : Call) : M Reply :=
  fun h => (match env h c with raises => Raised | r => Ok r end, h ++ [c]).

(** [self.session.get(url, params=...)] *)
Definition get (url : string) (params : list (string * string))
  : M (nat * option json) :=
  r <~ call (session_get url params) ;;
  match r with
  | response status_code body => ret (status_code, body)
  | _ => raise
  end.

(** [self.session.post(url, json=...)] *)
Definition post (url : string) (data : json) : M (nat * option json) :=
  r <~ call (session_post url data) ;;
  match r with
  | response status_code body => ret (status_code, body)
  | _ => raise
  end.

Definition check_server (self : t) : M bool :=
  try_except
    (response <~ get (base_url self ++ "/") [] ;;
     ret (fst response =? 200))
    (ret false).

(** The [try] block of [authenticate]: [true] when it returned [True],
    after printing [success] and the display name. *)
Definition check_status (self : t) (success : string) : M bool :=
  try_except
    (response <~ get (base_url self ++ "/api/status") [] ;;
     body <~ lift (snd response) ;;
     authenticated <~ lift (dict_get body "authenticated" JNull) ;;
     if truthy authenticated
     then
       user <~ lift (dict_get body "user" (JObj [])) ;;
       name <~ lift (dict_get user "display_name" (JStr "User")) ;;
       emit (print [lit success; val name]) ;;>
       ret true
     else ret false)
    (ret false).

(** The waiting loop, over the values of [i] still to come: [true] when it
    returned [True]. *)
Fixpoint wait (self : t) (indices : list nat) : M bool :=
  match indices with
  | [] => ret false
  | i :: rest =>
      emit time_sleep ;;>
      ok <~ check_status self "✅ Successfully authenticated as " ;;
      if ok then ret true
      else
        (if i mod 10 =? 0
         then emit (print [lit "⏳ Still waiting... (";
                           val (JNum (60 - Z.of_nat i));
                           lit "s remaining)"])
         else ret tt) ;;>
        wait self rest
  end.

Definition authenticate (self : t) : M bool :=
  emit (print [lit "🎵 Starting Spotify authentication..."]) ;;>
  ok <~ check_status self "✅ Already authenticated as " ;;
  if ok then ret true
  else
    emit (print [lit "🔐 Opening browser for Spotify authentication..."]) ;;>
    call (webbrowser_open (base_url self ++ "/auth")) ;;>
    emit (print [lit "⏳ Waiting for authentication... (check your browser)"])
    ;;>
    ok <~ wait self (seq 0 60) ;;
    if ok then ret true
    else
      emit (print [lit "❌ Authentication timeout. Please try again."]) ;;>
      ret false.

(** [get_chart]: the parsed body, [JNull] being [None]. *)
Definition get_chart (self : t) (date : option string) : M json :=
  let url := (base_url self ++ "/api/charts")%string in
  let params := match date with
                | Some d => if truthy_str d then [("date", d)] else []
                | None => []
                end in
  try_except
    (response <~ get url params ;;
     lift (snd response))
    (emit (print [lit "❌ Error fetching chart: "; exc]) ;;>
     ret JNull).

Definition json_of_opt (o : option string) : json :=
  match o with Some s => JStr s | None => JNull end.

(** One line per missing track, for the first ten. *)
Definition print_track (track : json) : M unit :=
  title <~ lift (getitem track "title") ;;
  artist <~ lift (getitem track "artist") ;;
  emit (print [lit "   • "; val title; lit " - "; val artist]).

Definition print_missing (missing_tracks : json) : M unit :=
  if truthy missing_tracks
  then
    n <~ lift (len missing_tracks) ;;
    emit (print [lit (String (ascii_of_nat 10) "❌ Missing tracks (");
                 val (JNum (Z.of_nat n)); lit "):"]) ;;>
    tracks <~ lift (iter_first10 missing_tracks) ;;
    for_each tracks print_track ;;>
    n' <~ lift (len missing_tracks) ;;
    if 10 <? n'
    then emit (print [lit "   ... and "; val (JNum (Z.of_nat n' - 10));
                      lit " more"])
    else ret tt
  else ret tt.

Definition create_playlist (self : t) (date playlist_name : option string)
  (public : bool) : M bool :=
  emit (print [lit "🎵 Creating playlist for ";
               lit (or_default date "current");
               lit " Billboard Hot 100..."]) ;;>
  let url := (base_url self ++ "/api/create_playlist")%string in
  let data := JObj [("date", json_of_opt date);
                    ("playlist_name", json_of_opt playlist_name);
                    ("public", JBool public)] in
  try_except
    (response <~ post url data ;;
     result <~ lift (snd response) ;;
     if fst response =? 200
     then
       stats <~ lift (getitem result "stats") ;;
       playlist <~ lift (getitem result "playlist") ;;
       name <~ lift (getitem playlist "name") ;;
       emit (print [lit "✅ Successfully created playlist: "; val name]) ;;>
       url' <~ lift (getitem playlist "url") ;;
       emit (print [lit "🔗 Playlist URL: "; val url']) ;;>
       found <~ lift (getitem stats "found") ;;
       total <~ lift (getitem stats "total_songs") ;;
       emit (print [lit "📊 Stats: "; val found; lit "/"; val total;
                    lit " tracks found"]) ;;>
       missing_tracks <~ lift (getitem result "missing_tracks") ;;
       print_missing missing_tracks ;;>
       ret true
     else
       error <~ lift (dict_get result "error" (JStr "Unknown error")) ;;
       emit (print [lit "❌ Error: "; val error]) ;;>
       ret false)
    (emit (print [lit "❌ Error creating playlist: "; exc]) ;;>
     ret false).

(** One line of the [chart] command. *)
Definition print_song (song : json) : M unit :=
  position <~ lift (getitem song "position") ;;
  if formats_2d position
  then
    title <~ lift (getitem song "title") ;;
    artist <~ lift (getitem song "artist") ;;
    emit (print [val_2d position; lit ". "; val title; lit " - ";
                 val artist])
  else raise.

Definition usage : list (list Piece) :=
  [ [lit "Usage:"];
    [lit "  python cli_client.py          # Interactive mode"];
    [lit "  python cli_client.py auth     # Authenticate only"];
    [lit "  python cli_client.py create [date]  # Create playlist"];
    [lit "  python cli_client.py chart [date]   # View chart"] ].

(** [main], on [sys.argv]; [interactive_mode] is the menu loop. *)
Definition main (interactive_mode : t -> M unit) (argv : list string)
  : M unit :=
  let cli := default in
  match argv with
  | _ :: command :: rest =>
      let date := match rest with d :: _ => Some d | [] => None end in
      if String.eqb command "auth" then
        authenticate cli ;;> ret tt
      else if String.eqb command "create" then
        ok <~ authenticate cli ;;
        if ok then create_playlist cli date None true ;;> ret tt
        else ret tt
      else if String.eqb command "chart" then
        chart <~ get_chart cli date ;;
        if truthy chart
        then
          songs <~ lift (getitem chart "songs") ;;
          items <~ lift (iter songs) ;;
          for_each items print_song
        else ret tt
      else for_each usage (fun line => emit (print line))
  | _ => interactive_mode cli
  end.

End Methods.

End Cli.

Notation "x <~ m ;; k" := (Cli.bind m (fun x => k))
  (at level 61, m at next level, right associativity).
Notation "m ;;> k" := (Cli.bind m (fun _ => k))
  (at level 61, right associativity).

(** ** Vocabulary of the statements *)

Definition ceil_div (n d : nat) : nat := (n + d - 1) / d.

(** The chunks [add_tracks_to_playlist] cuts, in loop order. *)
Definition chunks (track_uris : list string) : list (list string) :=
  map (fun i => slice track_uris i (i + SpotifyService.chunk_size))
      (range 0 (List.length track_uris) SpotifyService.chunk_size).

(** At most 100 entries, every position positive and carried by exactly
    one entry. *)
Definition chart_ok (songs : list Song.t) : Prop :=
  List.length songs <= 100 /\
  forall s, In s songs ->
    1 <= Song.position s /\
    count_occ Nat.eq_dec (map Song.position songs) (Song.position s) = 1.

(** Every call the computation makes, from any history, satisfies [P].
    The history only ever grows. *)
Definition emits {A : Type} (P : Call -> Prop) (m : M A) : Prop :=
  forall h, exists calls, snd (m h) = h ++ calls /\ Forall P calls.

(** A reply to a search that makes [search_track] give up: an exception
    (or a reply that is no track listing), or a top hit without artist. *)
Definition search_fails (r : Reply) : Prop :=
  match r with
  | tracks_reply [] => False
  | tracks_reply (track :: _) => Track.artists track = []
  | _ => True
  end.

(** What the specification says of [searchTrack], given the reply
    [replies j] to the [j]-th of [n] queries: [SearchOutcome replies n k r]
    when [k] queries are issued and [r] is returned. *)
Inductive SearchOutcome (replies : nat -> Reply) (n : nat)
  : nat -> option TrackInfo.t -> Prop :=
| first_hit j track rest a others :
    j < n ->
    (forall i, i < j -> replies i = tracks_reply []) ->
    replies j = tracks_reply (track :: rest) ->
    Track.artists track = a :: others ->
    SearchOutcome replies n (S j)
      (Some (TrackInfo.mk (Track.uri track) (Track.name track) a
                          (Track.popularity track)))
| no_hits :
    (forall i, i < n -> replies i = tracks_reply []) ->
    SearchOutcome replies n n None
| gave_up j :
    j < n ->
    (forall i, i < j -> replies i = tracks_reply []) ->
    search_fails (replies j) ->
    SearchOutcome replies n (S j) None.

(** What a method wrapped in [try: ... except: return None] returns. *)
Definition returned {A : Type} (res : Exc (option A)) : option A :=
  match res with Ok r => r | Raised => None end.

(** What [add_tracks_to_playlist] does with [n] chunks, given the reply
    [replies j] to the call for the [j]-th: [AddOutcome replies n k ok] when
    [k] calls are issued and [ok] is returned. *)
Inductive AddOutcome (replies : nat -> Reply) (n : nat)
  : nat -> bool -> Prop :=
| all_added :
    (forall j, j < n -> replies j <> raises) ->
    AddOutcome replies n n true
| chunk_failed j :
    j < n ->
    (forall i, i < j -> replies i <> raises) ->
    replies j = raises ->
    AddOutcome replies n (S j) false.

(** The add step returned [True]. *)
Definition succeeded (res : Exc bool) : bool :=
  match res with Ok true => true | _ => false end.

(** A call that creates a playlist creates it public. *)
Definition creates_public (c : Call) : Prop :=
  match c with
  | sp_user_playlist_create _ _ _ public => public = true
  | _ => True
  end.

(** [Split l1 l2 l]: every element of [l] went to exactly one of [l1] and
    [l2], order kept. *)
Inductive Split {A : Type} : list A -> list A -> list A -> Prop :=
| split_nil : Split [] [] []
| split_left x l1 l2 l : Split l1 l2 l -> Split (x :: l1) l2 (x :: l)
| split_right x l1 l2 l : Split l1 l2 l -> Split l1 (x :: l2) (x :: l).

(** The reply to the [j]-th of the calls [cs] issued in a row from
    history [h]. *)
Definition reply_at (env : Env) (h : list Call) (cs : list Call) (j : nat)
  : Reply :=
  match nth_error cs j with
  | Some c => env (h ++ firstn j cs) c
  | None => raises
  end.

(** The address [get_chart] requests. *)
Definition chart_url (date : option string) : string :=
  match date with
  | Some d => if truthy_str d
              then BillboardScraper.base_url ++ "/" ++ d
              else BillboardScraper.base_url
  | None => BillboardScraper.base_url
  end.

(** The codes of the authentications among some invocations. *)
Definition auth_codes (ops : list Op) : list string :=
  flat_map (fun op => match op with
                      | op_authenticate code => [code]
                      | _ => []
                      end) ops.

(** The client after invocations that returned [results], starting with
    [client]: bound to the credential of the latest authentication that
    succeeded. *)
Definition latest_client (client : option Spotify)
  (results : list (option TokenInfo)) : option Spotify :=
  fold_left (fun c r => match r with
                        | Some token_info =>
                            Some {| auth := access_token token_info |}
                        | None => c
                        end) results client.

Definition is_catalog (c : Call) : bool :=
  match c with
  | sp_search _ | sp_current_user | sp_user_playlist_create _ _ _ _
  | sp_playlist_add_items _ _ => true
  | _ => false
  end.

(** How often the character [c] occurs in [s]. *)
Fixpoint occurrences (c : ascii) (s : string) : nat :=
  match s with
  | EmptyString => 0
  | String x r => (if Ascii.eqb x c then 1 else 0) + occurrences c r
  end.


(** ** Vocabulary for the client *)

Definition status_request (self : Cli.t) : Cli.Call :=
  Cli.session_get (Cli.base_url self ++ "/api/status") [].

(** The display name under which a reply to a status request signs the
    user in, if it does. *)
Definition signed_in (r : Cli.Reply) : option Cli.json :=
  match r with
  | Cli.response _ (Some body) =>
      match Cli.dict_get body "authenticated" Cli.JNull with
      | Some authenticated =>
          if Cli.truthy authenticated
          then match Cli.dict_get body "user" (Cli.JObj []) with
               | Some user =>
                   Cli.dict_get user "display_name" (Cli.JStr "User")
               | None => None
               end
          else None
      | None => None
      end
  | _ => None
  end.

(** What [authenticate] does before it starts waiting, when the first
    status check does not sign in. *)
Definition opening (self : Cli.t) : list Cli.Call :=
  [ Cli.print [Cli.lit "🎵 Starting Spotify authentication..."];
    status_request self;
    Cli.print [Cli.lit "🔐 Opening browser for Spotify authentication..."];
    Cli.webbrowser_open (Cli.base_url self ++ "/auth");
    Cli.print
      [Cli.lit "⏳ Waiting for authentication... (check your browser)"] ].

(** Round [i] of the waiting loop when its status check does not sign
    in. *)
Definition failed_round (self : Cli.t) (i : nat) : list Cli.Call :=
  [Cli.time_sleep; status_request self]
  ++ (if i mod 10 =? 0
      then [Cli.print [Cli.lit "⏳ Still waiting... (";
                       Cli.val (Cli.JNum (60 - Z.of_nat i));
                       Cli.lit "s remaining)"]]
      else []).

Definition is_get (c : Cli.Call) : bool :=
  match c with Cli.session_get _ _ => true | _ => false end.
Definition is_request (c : Cli.Call) : bool :=
  match c with
  | Cli.session_get _ _ | Cli.session_post _ _ => true
  | _ => false
  end.
Definition is_post (c : Cli.Call) : bool :=
  match c with Cli.session_post _ _ => true | _ => false end.
Definition is_wait (c : Cli.Call) : bool :=
  match c with Cli.time_sleep => true | _ => false end.
Definition is_browser (c : Cli.Call) : bool :=
  match c with Cli.webbrowser_open _ => true | _ => false end.
Definition is_track_line (c : Cli.Call) : bool :=
  match c with
  | Cli.print (Cli.lit s :: _) => String.eqb s "   • "
  | _ => false
  end.

(** The first lines of the client's [create_playlist]. *)
Definition creating_line (date : option string) : Cli.Call :=
  Cli.print [Cli.lit "🎵 Creating playlist for ";
             Cli.lit (or_default date "current");
             Cli.lit " Billboard Hot 100..."].

Definition create_request (self : Cli.t) (date playlist_name : option string)
  (public : bool) : Cli.Call :=
  Cli.session_post (Cli.base_url self ++ "/api/create_playlist")
    (Cli.JObj [("date", Cli.json_of_opt date);
               ("playlist_name", Cli.json_of_opt playlist_name);
               ("public", Cli.JBool public)]).

Definition is_print (c : Cli.Call) : Prop :=
  match c with Cli.print _ => True | _ => False end.

(** The computation only prints. *)
Definition prints_only {A : Type} (m : Cli.M A) : Prop :=
  forall h, exists lines, snd (m h) = h ++ lines /\ Forall is_print lines.

(** What the client prints about the missing tracks of an answer. *)
Definition track_line (s : Song.t) : Cli.Call :=
  Cli.print [Cli.lit "   • "; Cli.val (Cli.JStr (Song.title s));
             Cli.lit " - "; Cli.val (Cli.JStr (Song.artist s))].

Definition missing_lines (missing_tracks : list Song.t) : list Cli.Call :=
  match missing_tracks with
  | [] => []
  | _ =>
      let n := List.length missing_tracks in
      Cli.print [Cli.lit (String (ascii_of_nat 10) "❌ Missing tracks (");
                 Cli.val (Cli.JNum (Z.of_nat n)); Cli.lit "):"]
      :: map track_line (firstn 10 missing_tracks)
      ++ (if 10 <? n
          then [Cli.print [Cli.lit "   ... and ";
                           Cli.val (Cli.JNum (Z.of_nat n - 10));
                           Cli.lit " more"]]
          else [])
  end.

(** The line of the [chart] command for one entry. *)
Definition song_line (s : Song.t) : Cli.Call :=
  Cli.print [Cli.val_2d (Cli.JNum (Z.of_nat (Song.position s)));
             Cli.lit ". "; Cli.val (Cli.JStr (Song.title s));
             Cli.lit " - "; Cli.val (Cli.JStr (Song.artist s))].

Definition charts_request (self : Cli.t) (date : option string) : Cli.Call :=
  Cli.session_get (Cli.base_url self ++ "/api/charts")
    (match date with
     | Some d => if truthy_str d then [("date", d)] else []
     | None => []
     end).

(** [sys.argv[2] if len(sys.argv) > 2 else None], on [sys.argv[2:]]. *)
Definition first_argument (rest : list string) : option string :=
  match rest with d :: _ => Some d | [] => None end.

(** ** What the service sends: [jsonify], as the client decodes it *)

Definition json_of_song (s : Song.t) : list (string * Cli.json) :=
  [ ("position", Cli.JNum (Z.of_nat (Song.position s)));
    ("title", Cli.JStr (Song.title s));
    ("artist", Cli.JStr (Song.artist s)) ].

Definition json_of_found (f : FoundTrack) : Cli.json :=
  Cli.JObj (json_of_song (song f)
            ++ [ ("spotify_name", Cli.JStr (spotify_name f));
                 ("spotify_artist", Cli.JStr (spotify_artist f)) ]).

(** The profile, as far as [User] keeps it. *)
Definition json_of_user (u : User) : Cli.json :=
  Cli.JObj [ ("id", Cli.JStr (user_id u));
             ("display_name", Cli.JStr (display_name u)) ].

Definition to_json (j : Json) : Cli.json :=
  match j with
  | error_body error => Cli.JObj [("error", Cli.JStr error)]
  | message_body status message =>
      Cli.JObj [("status", Cli.JStr status); ("message", Cli.JStr message)]
  | playlist_body status p stats found_tracks missing_tracks =>
      Cli.JObj
        [ ("status", Cli.JStr status);
          ("playlist",
           Cli.JObj [ ("id", Cli.JStr (Playlist.id p));
                      ("name", Cli.JStr (Playlist.name p));
                      ("url", Cli.JStr (Playlist.external_url p)) ]);
          ("stats",
           Cli.JObj [ ("total_songs", Cli.JNum (Z.of_nat (total_songs stats)));
                      ("found", Cli.JNum (Z.of_nat (found stats)));
                      ("missing", Cli.JNum (Z.of_nat (missing stats))) ]);
          ("found_tracks", Cli.JList (map json_of_found found_tracks));
          ("missing_tracks",
           Cli.JList (map (fun s => Cli.JObj (json_of_song s))
                          missing_tracks)) ]
  | status_body authenticated user =>
      Cli.JObj [ ("authenticated", Cli.JBool authenticated);
                 ("user", match user with
                          | Some u => json_of_user u
                          | None => Cli.JNull
                          end) ]
  | track_found track =>
      Cli.JObj
        [ ("status", Cli.JStr "found");
          ("track",
           Cli.JObj [ ("uri", Cli.JStr (TrackInfo.uri track));
                      ("name", Cli.JStr (TrackInfo.name track));
                      ("artist", Cli.JStr (TrackInfo.artist track));
                      ("popularity", Cli.JNum (TrackInfo.popularity track)) ])
        ]
  | track_not_found => Cli.JObj [("status", Cli.JStr "not_found")]
  end.

(** The HTTP response carrying what a route returned. *)
Definition sent (resp : Response) : Cli.Reply :=
  Cli.response (http_status resp) (Some (to_json (body resp))).

(** The response to a request served by a route: what it returned, or
    an error page when it raised. *)
Definition sent_result (r : Exc Response * list Call) : Cli.Reply :=
  match fst r with
  | Ok resp => sent resp
  | Raised => Cli.response 500 None
  end.

Definition charts_to_json (j : ChartsJson) : Cli.json :=
  match j with
  | charts_error error => Cli.JObj [("error", Cli.JStr error)]
  | charts_body date total songs =>
      Cli.JObj [ ("date", Cli.JStr date);
                 ("total_songs", Cli.JNum (Z.of_nat total));
                 ("songs", Cli.JList (map (fun s => Cli.JObj (json_of_song s))
                                          songs)) ]
  end.

Definition charts_sent (resp : ChartsResponse) : Cli.Reply :=
  Cli.response (charts_status resp) (Some (charts_to_json (charts_json resp))).

(** ** A small world to run the code in *)

Module Demo.

Definition element (text : string) : Element :=
  {| get_text := text; parent_find_all := Some [text; " Some Artist "] |}.

(** A page on which the second matched element has a one-letter text. *)
Definition soup : Soup :=
  {| select := fun s => if String.eqb s "h3.c-title"
                        then [element " Song A "; element "x";
                              element "Song B"]
                        else [];
     find_all_h3 := [] |}.

Definition credential : TokenInfo :=
  {| access_token := "tok"; expires_at := 0%Z; refresh_token := "ref" |}.

Definition hit : Track.t :=
  Track.mk "spotify:track:1" "Song A" ["Some Artist"] 50%Z.

Definition me : User := {| user_id := "u1"; display_name := "Me" |}.

(** The catalog finds [hit] for every query, or nothing at all; adding
    items works, or raises. *)
Definition world (hits add_ok : bool) : Env :=
  fun _ c =>
    match c with
    | requests_get _ => html_reply soup
    | get_access_token code =>
        if String.eqb code "good" then token_reply credential else raises
    | sp_search _ => tracks_reply (if hits then [hit] else [])
    | sp_current_user => user_reply me
    | sp_user_playlist_create _ name _ _ =>
        playlist_reply (Playlist.mk "pl1" name "https://open.spotify.com/pl1")
    | sp_playlist_add_items _ _ => if add_ok then none_reply else raises
    | time_sleep => none_reply
    end.

Definition logged_in : Session := {| token_info := Some credential |}.
Definition anonymous : Session := {| token_info := None |}.

Definition service : SpotifyService.t :=
  {| SpotifyService.sp := Some {| auth := "tok" |} |}.

Definition request : CreateRequest.t := CreateRequest.mk None None None.

(** A page that no selector matches, with two headings. *)
Definition headings : Soup :=
  {| select := fun _ => [];
     find_all_h3 := [element "Hot 100"; element "A"] |}.

(** A stand-in for [strptime]: one date parses. *)
Definition strptime_ok (date : string) : bool := String.eqb date "2024-01-06".

End Demo.

(** The service of the demo world behind the client's requests, every
    request coming with the same session cookie. *)
Module CliDemo.

Fixpoint lookup_param (key : string) (params : list (string * string))
  : option string :=
  match params with
  | [] => None
  | (k, v) :: rest => if String.eqb k key then Some v
                      else lookup_param key rest
  end.

Definition request_of (data : Cli.json) : CreateRequest.t :=
  let text key := match Cli.getitem data key with
                  | Some (Cli.JStr s) => Some s
                  | _ => None
                  end in
  CreateRequest.mk (text "date") (text "playlist_name")
    (match Cli.getitem data "public" with
     | Some (Cli.JBool b) => Some b
     | _ => None
     end).

Definition served (hits : bool) (session : Session)
  (service : SpotifyService.t) : Cli.Env :=
  fun _ c =>
    match c with
    | Cli.session_get url params =>
        if String.eqb url "http://localhost:5000/api/status"
        then sent_result (status (Demo.world hits true) session service [])
        else if String.eqb url "http://localhost:5000/api/charts"
        then match fst (get_charts (Demo.world hits true) Demo.strptime_ok
                          (lookup_param "date" params) []) with
             | Ok resp => charts_sent resp
             | Raised => Cli.response 500 None
             end
        else Cli.response 404 None
    | Cli.session_post url data =>
        if String.eqb url "http://localhost:5000/api/create_playlist"
        then sent_result (create_playlist (Demo.world hits true) session
                            service (request_of data) "2024-01-06" [])
        else Cli.response 404 None
    | _ => Cli.returns
    end.

End CliDemo.

(** * Properties *)

(** ** The chart fetcher *)

Section ChartFacts.
Context `{CharTables}.
Import BillboardScraper.

Lemma valid_title_length (title : string) :
  valid_title title = true <-> 2 <= String.length title.
Proof.
  unfold valid_title. destruct title as [|c r]; simpl.
  - split; [discriminate | lia].
  - rewrite Nat.ltb_lt. reflexivity.
Qed.

(** The loop keeps exactly the elements with a valid title, each under its
    own index. *)
Lemma chart_loop_In (elements : list Element) :
  forall i s,
    In s (chart_loop i elements) <->
    exists j element,
      nth_error elements j = Some element /\
      valid_title (strip (get_text element)) = true /\
      s = Song.mk (i + j + 1) (strip (get_text element))
            (artist_of (strip (get_text element)) element).
Proof.
  induction elements as [|e rest IH]; intros i s; simpl.
  - split; [tauto|]. intros (j & e & Hj & _). destruct j; discriminate.
  - destruct (valid_title (strip (get_text e))) eqn:Hv; simpl; rewrite IH.
    + split.
      * intros [<- | (j & e' & Hj & Hv' & ->)].
        -- exists 0, e. rewrite Nat.add_0_r. auto.
        -- exists (S j), e'. repeat split; auto. f_equal; lia.
      * intros ([|j] & e' & Hj & Hv' & ->); simpl in Hj.
        -- injection Hj as <-. left. rewrite Nat.add_0_r. reflexivity.
        -- right. exists j, e'. repeat split; auto. f_equal; lia.
    + split.
      * intros (j & e' & Hj & Hv' & ->).
        exists (S j), e'. repeat split; auto. f_equal; lia.
      * intros ([|j] & e' & Hj & Hv' & ->); simpl in Hj.
        -- injection Hj as <-. congruence.
        -- exists j, e'. repeat split; auto. f_equal; lia.
Qed.

Lemma chart_loop_length (elements : list Element) :
  forall i, List.length (chart_loop i elements) <= List.length elements.
Proof.
  induction elements as [|e rest IH]; intros i; simpl; [lia|].
  destruct (valid_title _); simpl; specialize (IH (S i)); lia.
Qed.

Lemma chart_loop_above (elements : list Element) :
  forall i s, In s (chart_loop i elements) -> i < Song.position s.
Proof.
  intros i s Hs. apply chart_loop_In in Hs.
  destruct Hs as (j & e & _ & _ & ->). simpl. lia.
Qed.

Lemma chart_loop_NoDup (elements : list Element) :
  forall i, NoDup (map Song.position (chart_loop i elements)).
Proof.
  induction elements as [|e rest IH]; intros i; simpl; [constructor|].
  destruct (valid_title _); simpl; [|apply IH].
  constructor; [|apply IH].
  rewrite in_map_iff. intros (s & Hp & Hs).
  apply chart_loop_above in Hs. lia.
Qed.

(** The closing [songs[:100]] cuts nothing: the loop ran over at most 100
    elements. *)
Lemma parse_chart_loop (soup : Soup) :
  parse_chart soup = chart_loop 0 (firstn 100 (song_elements soup)).
Proof.
  unfold parse_chart. apply firstn_all2.
  etransitivity; [apply chart_loop_length|]. apply firstn_le_length.
Qed.

End ChartFacts.

Section ChartTheorems.
Context `{CharTables}.
Import BillboardScraper.

Lemma chart_loop_ok (elements : list Element) :
  List.length elements <= 100 -> chart_ok (chart_loop 0 elements).
Proof.
  intros Hlen. split.
  - pose proof (chart_loop_length elements 0). lia.
  - intros s Hs. split.
    + apply chart_loop_above in Hs. lia.
    + apply NoDup_count_occ'; [apply chart_loop_NoDup|].
      apply in_map, Hs.
Qed.

(** [get_chart] never raises: it returns the parsed chart, or [[]]. *)
Lemma get_chart_cases (env : Env) (date : option string) (h : list Call) :
  exists h',
    get_chart env date h = (Ok [], h') \/
    exists soup, get_chart env date h = (Ok (parse_chart soup), h').
Proof.
  unfold get_chart, try_except, bind, fetch_soup, call, ret, raise. cbn.
  match goal with |- context [env h ?c] => destruct (env h c) end;
    cbn; eauto.
Qed.

Lemma chart_ok_nil : chart_ok [].
Proof. split; simpl; [lia | tauto]. Qed.

(** C8. Whatever page is parsed, through a selector or through the heading
    fallback, the chart has at most 100 entries, and every entry's position
    is positive and occurs exactly once; so has the chart [get_chart]
    returns, which is the parsed one or empty. *)
Theorem chart_at_most_100_unique_positions :
  (forall soup, chart_ok (parse_chart soup)) /\
  (forall env date h,
     exists songs h', get_chart env date h = (Ok songs, h') /\
                      chart_ok songs).
Proof.
  assert (Hparse : forall soup, chart_ok (parse_chart soup)).
  { intros soup. rewrite parse_chart_loop.
    apply chart_loop_ok, firstn_le_length. }
  split; [exact Hparse|].
  intros env date h.
  destruct (get_chart_cases env date h) as (h' & [E | (soup & E)]);
    rewrite E; eauto using chart_ok_nil.
Qed.

(** C4 (as the code has it). Among the first 100 matched elements, the one
    at index [i] yields an entry exactly when its trimmed text has at least
    2 characters, and that entry carries position [i + 1], the element's
    own rank: a discarded element leaves a gap, the later positions do not
    move. *)
Theorem chart_positions_are_element_ranks (soup : Soup) :
  let elements := firstn 100 (song_elements soup) in
  (forall i element,
     nth_error elements i = Some element ->
     (In (i + 1) (map Song.position (parse_chart soup)) <->
      2 <= String.length (strip (get_text element)))) /\
  (forall s,
     In s (parse_chart soup) ->
     exists element,
       nth_error elements (Song.position s - 1) = Some element /\
       1 <= Song.position s /\
       Song.title s = strip (get_text element)).
Proof.
  intros elements. rewrite parse_chart_loop. fold elements. split.
  - intros i e Hi. rewrite <- valid_title_length, in_map_iff. split.
    + intros (s & Hp & Hs). apply chart_loop_In in Hs.
      destruct Hs as (j & e' & Hj & Hv & ->). simpl in Hp.
      assert (j = i) by lia. subst j. congruence.
    + intros Hv. eexists. split; [|apply chart_loop_In; eauto].
      reflexivity.
  - intros s Hs. apply chart_loop_In in Hs.
    destruct Hs as (j & e & Hj & Hv & ->). simpl.
    exists e. replace (j + 1 - 1) with j by lia. repeat split; auto. lia.
Qed.

End ChartTheorems.

(** On the demo page the one-letter element at rank 2 yields no entry and
    the element after it keeps position 3. *)
Lemma chart_positions_are_element_ranks_witness :
  ~ In 2 (map Song.position (BillboardScraper.parse_chart Demo.soup)) /\
  In 3 (map Song.position (BillboardScraper.parse_chart Demo.soup)).
Proof.
  destruct (chart_positions_are_element_ranks Demo.soup) as [Hrank _].
  split.
  - intros Hin. apply (Hrank 1 (Demo.element "x")) in Hin.
    + vm_compute in Hin. lia.
    + reflexivity.
  - apply (Hrank 2 (Demo.element "Song B")).
    + reflexivity.
    + vm_compute. lia.
Defined.

(** C4 as the specification words it: the surviving entries would be
    numbered 1, 2, ... without gaps.  On the demo page they are numbered
    1 and 3. *)
Lemma chart_positions_not_renumbered :
  map Song.position (BillboardScraper.parse_chart Demo.soup) = [1; 3] /\
  map Song.position (BillboardScraper.parse_chart Demo.soup) <>
  seq 1 (List.length (BillboardScraper.parse_chart Demo.soup)).
Proof.
  split; [reflexivity|]. vm_compute. discriminate.
Qed.

(** ** The monad *)

Section MonadFacts.
Variable env : Env.

Lemma emits_ret {A} (P : Call -> Prop) (a : A) : emits P (ret a).
Proof. intros h. exists []. rewrite app_nil_r. auto. Qed.

Lemma emits_raise {A} (P : Call -> Prop) : emits P (@raise A).
Proof. intros h. exists []. rewrite app_nil_r. auto. Qed.

Lemma emits_call (P : Call -> Prop) (c : Call) : P c -> emits P (call env c).
Proof. intros Hc h. exists [c]. auto. Qed.

Lemma emits_sleep (P : Call -> Prop) : P time_sleep -> emits P sleep.
Proof. intros Hc h. exists [time_sleep]. auto. Qed.

Lemma emits_bind {A B} (P : Call -> Prop) (m : M A) (k : A -> M B) :
  emits P m -> (forall a, emits P (k a)) -> emits P (bind m k).
Proof.
  intros Hm Hk h. unfold bind.
  destruct (Hm h) as (c1 & E1 & F1).
  destruct (m h) as [[a|] h1]; simpl in E1; subst h1.
  - destruct (Hk a (h ++ c1)) as (c2 & E2 & F2).
    exists (c1 ++ c2). rewrite E2, app_assoc. split; auto.
    apply Forall_app; auto.
  - exists c1. auto.
Qed.

Lemma emits_try {A} (P : Call -> Prop) (m handler : M A) :
  emits P m -> emits P handler -> emits P (try_except m handler).
Proof.
  intros Hm Hh h. unfold try_except.
  destruct (Hm h) as (c1 & E1 & F1).
  destruct (m h) as [[a|] h1]; simpl in E1; subst h1.
  - exists c1. auto.
  - destruct (Hh (h ++ c1)) as (c2 & E2 & F2).
    exists (c1 ++ c2). rewrite E2, app_assoc. split; auto.
    apply Forall_app; auto.
Qed.

Lemma emits_for_each {A} (P : Call -> Prop) (l : list A)
  (body : A -> M unit) :
  (forall x, emits P (body x)) -> emits P (for_each l body).
Proof.
  intros Hbody. induction l as [|x r IH]; simpl.
  - apply emits_ret.
  - apply emits_bind; auto.
Qed.

Lemma for_each_map {A B} (f : A -> B) (l : list A) (body : B -> M unit) :
  forall h, for_each (map f l) body h = for_each l (fun x => body (f x)) h.
Proof.
  induction l as [|x r IH]; intros h; simpl; [reflexivity|].
  unfold bind. destruct (body (f x) h) as [[[]|] h1]; auto.
Qed.

Lemma reply_at_0 (h : list Call) (c : Call) (cs : list Call) :
  reply_at env h (c :: cs) 0 = env h c.
Proof. unfold reply_at. simpl. rewrite app_nil_r. reflexivity. Qed.

Lemma reply_at_S (h : list Call) (c : Call) (cs : list Call) (j : nat) :
  reply_at env h (c :: cs) (S j) = reply_at env (h ++ [c]) cs j.
Proof.
  unfold reply_at. simpl. destruct (nth_error cs j); [|reflexivity].
  rewrite <- app_assoc. reflexivity.
Qed.

End MonadFacts.

(** ** The catalog session *)

Section ServiceFacts.
Context `{CharTables}.
Variable env : Env.
Import SpotifyService.

Lemma clean_filter (s : string) :
  list_ascii_of_string (clean s) =
  filter (fun c => word_char c || isspace c) (list_ascii_of_string s).
Proof.
  unfold clean. induction s as [|c r IH]; simpl; [reflexivity|].
  destruct (word_char c || isspace c); simpl; rewrite IH; reflexivity.
Qed.

(** The query loop, on any list of queries. *)
Lemma search_loop_outcome (qs : list string) :
  forall h,
  exists k res,
    search_loop env qs h = (res, h ++ map sp_search (firstn k qs)) /\
    SearchOutcome (reply_at env h (map sp_search qs)) (List.length qs) k
      (returned res).
Proof.
  induction qs as [|q rest IH]; intros h.
  - exists 0, (Ok None). simpl. unfold ret. rewrite app_nil_r.
    split; [reflexivity|]. apply no_hits. intros i Hi. inversion Hi.
  - pose proof (reply_at_0 env h (sp_search q) (map sp_search rest)) as E0.
    simpl. unfold bind, search, call. cbn.
    destruct (env h (sp_search q)) as [| | |items| | |] eqn:Eq; cbn.
    all: try (exists 1, Raised; split; [reflexivity|];
              apply gave_up; [simpl; lia | intros i Hi; inversion Hi
                             | rewrite E0; exact I]).
    destruct items as [|track more].
    + destruct (IH (h ++ [sp_search q])) as (k & res & Erun & Hout).
      exists (S k), res. split.
      * rewrite Erun. simpl. rewrite <- app_assoc. reflexivity.
      * assert (Hprev : forall j,
                  (forall i, i < j ->
                     reply_at env (h ++ [sp_search q]) (map sp_search rest) i
                     = tracks_reply []) ->
                  forall i, i < S j ->
                     reply_at env h (sp_search q :: map sp_search rest) i
                     = tracks_reply []).
        { intros j Hj [|i] Hi; [exact E0|].
          rewrite reply_at_S. apply Hj. lia. }
        simpl List.length.
        destruct Hout as [j track rest' a others Hj Hbefore Hj' Ha
                         | Hall | j Hj Hbefore Hj'].
        -- apply first_hit with (rest := rest') (others := others);
             [lia | apply Hprev, Hbefore | rewrite reply_at_S; exact Hj'
             | exact Ha].
        -- apply no_hits. apply Hprev, Hall.
        -- apply gave_up; [lia | apply Hprev, Hbefore
                          | rewrite reply_at_S; exact Hj'].
    + unfold track_info.
      destruct (Track.artists track) as [|a others] eqn:Ea; cbn.
      * exists 1, Raised. split; [reflexivity|].
        apply gave_up; [lia | intros i Hi; inversion Hi|].
        rewrite E0. exact Ea.
      * eexists 1, (Ok (Some _)). split; [reflexivity|].
        eapply first_hit; [lia | intros i Hi; inversion Hi
                          | rewrite E0; reflexivity | exact Ea].
Qed.

Lemma search_track_unauthenticated (self : t) (title artist : string)
  (h : list Call) :
  sp self = None -> search_track env self title artist h = (Ok None, h).
Proof. intros E. unfold search_track. rewrite E. reflexivity. Qed.

Lemma search_track_authenticated (self : t) (client : Spotify)
  (title artist : string) (h : list Call) :
  sp self = Some client ->
  search_track env self title artist h
  = (Ok (returned (fst (search_loop env
                          (queries (clean title) (clean artist)) h))),
     snd (search_loop env (queries (clean title) (clean artist)) h)).
Proof.
  intros E. unfold search_track, try_except. rewrite E.
  destruct (search_loop env _ h) as [[r|] h']; reflexivity.
Qed.

(** A failed authentication leaves the object as it was. *)
Lemma authenticate_failed (self self' : t) (code : string)
  (h h' : list Call) :
  authenticate env self code h = (Ok (None, self'), h') -> self' = self.
Proof.
  unfold authenticate, try_except, bind, call, ret, raise. cbn.
  destruct (env h (get_access_token code)); cbn; congruence.
Qed.

Lemma invoke_failed (self self' : t) (op : Op) (h h' : list Call) :
  invoke env self op h = (Ok (None, self'), h') -> self' = self.
Proof.
  destruct op; simpl.
  - apply authenticate_failed.
  - unfold bind, ret.
    destruct (search_track env self title artist h) as [[r|] h1]; congruence.
  - unfold bind, ret.
    destruct (create_playlist env self name description public h)
      as [[r|] h1]; congruence.
  - unfold bind, ret.
    destruct (add_tracks_to_playlist env self playlist_id track_uris h)
      as [[r|] h1]; congruence.
Qed.

Lemma invoke_all_failed (ops : list Op) :
  forall self self' results h h',
    invoke_all env self ops h = (Ok (results, self'), h') ->
    Forall (fun r => r = None) results ->
    self' = self.
Proof.
  induction ops as [|op rest IH]; intros self self' results h h'; simpl.
  - unfold ret. congruence.
  - unfold bind at 1.
    destruct (invoke env self op h) as [[[r self1]|] h1] eqn:E1;
      [|discriminate].
    unfold bind, ret. cbn.
    destruct (invoke_all env self1 rest h1) as [[[rs self2]|] h2] eqn:E2;
      [|discriminate].
    cbn. intros Eq Hall. injection Eq as <- <- <-.
    inversion Hall as [|? ? Hr Hrs]; subst.
    apply invoke_failed in E1. subst self1.
    eapply IH; eauto.
Qed.

End ServiceFacts.

Section ServiceTheorems.
Context `{CharTables}.
Variable env : Env.
Import SpotifyService.

(** C9. On a service object that has gone through any invocations none of
    which was a successful authentication, [search_track] returns [None] for
    every title and artist: it returns normally, and without issuing a
    call. *)
Theorem search_before_authentication (ops : list Op)
  (results : list (option TokenInfo)) (self : t) (h h' : list Call) :
  invoke_all env init ops h = (Ok (results, self), h') ->
  Forall (fun r => r = None) results ->
  forall title artist h0,
    search_track env self title artist h0 = (Ok None, h0).
Proof.
  intros Hrun Hnone title artist h0.
  apply search_track_unauthenticated.
  apply invoke_all_failed in Hrun; [|exact Hnone].
  subst self. reflexivity.
Qed.

(** C7. On an authenticated session, with [t] and [a] the title and the
    artist stripped of every character that is neither a word character nor
    whitespace, [search_track] issues the first [k] of the four queries
    [track:"t" artist:"a"], ["t" "a"], [t a], [track:t artist:a], in that
    order, and what it returns follows the replies as the specification
    says: the first query with a hit ends the search and its top hit's uri,
    name, first artist and popularity are returned; four empty replies give
    [None]; a call that raises gives [None]. It never raises. *)
Theorem search_track_four_queries (self : t) (client : Spotify)
  (title artist : string) (h : list Call) :
  sp self = Some client ->
  let t := clean title in
  let a := clean artist in
  let qs := [ ("track:" ++ dquote ++ t ++ dquote
               ++ " artist:" ++ dquote ++ a ++ dquote)%string;
              (dquote ++ t ++ dquote ++ " " ++ dquote ++ a ++ dquote)%string;
              (t ++ " " ++ a)%string;
              ("track:" ++ t ++ " artist:" ++ a)%string ] in
  list_ascii_of_string t
  = filter (fun c => word_char c || isspace c) (list_ascii_of_string title) /\
  list_ascii_of_string a
  = filter (fun c => word_char c || isspace c) (list_ascii_of_string artist) /\
  exists k r,
    search_track env self title artist h
    = (Ok r, h ++ map sp_search (firstn k qs)) /\
    SearchOutcome (reply_at env h (map sp_search qs)) 4 k r.
Proof.
  intros Hauth t a qs.
  split; [apply clean_filter|]. split; [apply clean_filter|].
  rewrite (search_track_authenticated env self title artist h Hauth).
  destruct (search_loop_outcome env (queries t a) h)
    as (k & res & Erun & Hout).
  fold t a. rewrite Erun. simpl fst. simpl snd.
  exists k, (returned res). split; [reflexivity|]. exact Hout.
Qed.

End ServiceTheorems.

(** A failed authentication, then a search: nothing is found and nothing
    is asked. *)
Lemma search_before_authentication_witness :
  SpotifyService.search_track (Demo.world true true)
    SpotifyService.init "Song A" "Some Artist" []
  = (Ok None, []).
Proof.
  eapply (@search_before_authentication _ (Demo.world true true)
            [op_authenticate "bad"; op_search_track "Song A" "Some Artist"]
            _ _ [] _).
  - vm_compute. reflexivity.
  - repeat constructor.
Defined.

(** On a catalog without hits all four queries are issued, on cleaned
    terms. *)
Lemma search_track_four_queries_witness :
  exists k r,
    SpotifyService.search_track (Demo.world false true) Demo.service
      "Don't Stop!" "AC/DC" []
    = (Ok r, map sp_search
               (firstn k [ ("track:" ++ dquote ++ "Dont Stop" ++ dquote
                            ++ " artist:" ++ dquote ++ "ACDC" ++ dquote)%string;
                           (dquote ++ "Dont Stop" ++ dquote ++ " "
                            ++ dquote ++ "ACDC" ++ dquote)%string;
                           "Dont Stop ACDC"; "track:Dont Stop artist:ACDC" ])).
Proof.
  destruct (search_track_four_queries (Demo.world false true) Demo.service
              (client := {| auth := "tok" |}) "Don't Stop!" "AC/DC" []
              eq_refl) as (_ & _ & k & r & Erun & _).
  exists k, r. exact Erun.
Defined.

(** ** Chunking *)

Section ChunkFacts.

Lemma ceil_div_0 (s : nat) : 0 < s -> ceil_div 0 s = 0.
Proof. intros Hs. unfold ceil_div. apply Nat.div_small. lia. Qed.

Lemma ceil_div_step (n s : nat) :
  0 < s -> 0 < n -> ceil_div n s = S (ceil_div (n - s) s).
Proof.
  intros Hs Hn. unfold ceil_div.
  destruct (Nat.le_gt_cases s n) as [Hle|Hlt].
  - replace (n + s - 1) with ((n - s + s - 1) + 1 * s) by lia.
    rewrite Nat.div_add by lia. lia.
  - replace (n - s) with 0 by lia.
    replace (n + s - 1) with ((n - 1) + 1 * s) by lia.
    rewrite Nat.div_add by lia.
    rewrite (Nat.div_small (n - 1) s) by lia.
    rewrite (Nat.div_small (0 + s - 1) s) by lia. reflexivity.
Qed.

Lemma range_fuel_length (step stop : nat) :
  0 < step ->
  forall fuel start,
    stop - start <= fuel ->
    List.length (range_fuel fuel start stop step)
    = ceil_div (stop - start) step.
Proof.
  intros Hstep. induction fuel as [|fuel IH]; intros start Hfuel; simpl.
  - replace (stop - start) with 0 by lia. now rewrite ceil_div_0.
  - destruct (start <? stop) eqn:Hlt.
    + apply Nat.ltb_lt in Hlt. simpl. rewrite IH by lia.
      rewrite (ceil_div_step (n := stop - start)) by lia.
      do 2 f_equal. lia.
    + apply Nat.ltb_ge in Hlt.
      replace (stop - start) with 0 by lia. now rewrite ceil_div_0.
Qed.

Lemma range_fuel_concat {A} (l : list A) (step : nat) :
  0 < step ->
  forall fuel start,
    List.length l - start <= fuel ->
    List.concat (map (fun i => slice l i (i + step))
                (range_fuel fuel start (List.length l) step))
    = skipn start l.
Proof.
  intros Hstep. induction fuel as [|fuel IH]; intros start Hfuel; simpl.
  - symmetry. apply skipn_all2. lia.
  - destruct (start <? List.length l) eqn:Hlt.
    + simpl. rewrite IH by lia. unfold slice.
      replace (start + step - start) with step by lia.
      rewrite Nat.add_comm, <- skipn_skipn. apply firstn_skipn.
    + apply Nat.ltb_ge in Hlt. symmetry. apply skipn_all2. lia.
Qed.

Lemma chunks_length (track_uris : list string) :
  List.length (chunks track_uris) = ceil_div (List.length track_uris) 100.
Proof.
  unfold chunks, range. rewrite length_map.
  rewrite range_fuel_length; [f_equal; lia | unfold SpotifyService.chunk_size; lia | lia].
Qed.

Lemma chunks_concat (track_uris : list string) :
  List.concat (chunks track_uris) = track_uris.
Proof.
  unfold chunks, range.
  rewrite range_fuel_concat; [reflexivity | unfold SpotifyService.chunk_size; lia | lia].
Qed.

Lemma chunks_bounded (track_uris : list string) :
  Forall (fun chunk => List.length chunk <= 100) (chunks track_uris).
Proof.
  unfold chunks. apply Forall_map, Forall_forall. intros i _.
  unfold slice, SpotifyService.chunk_size.
  rewrite length_firstn. lia.
Qed.

End ChunkFacts.

Section AddFacts.
Variable env : Env.

(** Issuing a list of calls in a row, stopping at the first that raises. *)
Lemma issue_all_outcome (cs : list Call) :
  forall h,
  exists k ok,
    try_except (for_each cs (fun c => call env c ;;; ret tt) ;;; ret true)
               (ret false) h
    = (Ok ok, h ++ firstn k cs) /\
    AddOutcome (reply_at env h cs) (List.length cs) k ok.
Proof.
  induction cs as [|c rest IH]; intros h.
  - exists 0, true. simpl. unfold try_except, bind, ret. cbn.
    rewrite app_nil_r. split; [reflexivity|].
    apply all_added. intros j Hj. inversion Hj.
  - pose proof (reply_at_0 env h c rest) as E0.
    destruct (IH (h ++ [c])) as (k & ok & Erun & Hout).
    revert Erun. simpl. unfold try_except, bind, ret, call. cbn.
    destruct (env h c) eqn:Ec; cbn.
    1: { intros _. exists 1, false. split; [reflexivity|].
         apply chunk_failed; [simpl; lia | intros i Hi; inversion Hi
                             | exact E0]. }
    all: intros Erun; exists (S k), ok;
      (split; [ destruct (for_each rest _ (h ++ [c])) as [[[]|] h1];
                cbn in Erun |- *; rewrite <- app_assoc in Erun; exact Erun |]).
    all: assert (Hprev : forall j,
                   (forall i, i < j -> reply_at env (h ++ [c]) rest i
                                       <> raises) ->
                   forall i, i < S j -> reply_at env h (c :: rest) i
                                        <> raises)
      by (intros j Hj [|i] Hi;
          [rewrite E0; discriminate | rewrite reply_at_S; apply Hj; lia]).
    all: simpl List.length;
      destruct Hout as [Hall | j Hj Hbefore Hj'];
      [ apply all_added; apply Hprev, Hall
      | apply chunk_failed;
        [lia | apply Hprev, Hbefore | rewrite reply_at_S; exact Hj'] ].
Qed.

End AddFacts.

Section AddTheorem.
Context `{CharTables}.
Variable env : Env.
Import SpotifyService.

(** C6 (as the code has it). The identifiers are cut into
    [ceil(N/100)] chunks of at most 100, which concatenated in order give
    the sequence back.  On an authenticated session the chunks are sent one
    call each, in order, until a call raises: if none raises, every chunk
    is sent and the result is [true]; if the call for a chunk raises, no
    later chunk is sent and the result is [false]. *)
Theorem add_tracks_in_chunks (self : t) (client : Spotify)
  (playlist_id : string) (track_uris : list string) (h : list Call) :
  sp self = Some client ->
  let cs := chunks track_uris in
  List.length cs = ceil_div (List.length track_uris) 100 /\
  Forall (fun chunk => List.length chunk <= 100) cs /\
  List.concat cs = track_uris /\
  exists k ok,
    add_tracks_to_playlist env self playlist_id track_uris h
    = (Ok ok, h ++ map (sp_playlist_add_items playlist_id) (firstn k cs)) /\
    AddOutcome
      (reply_at env h (map (sp_playlist_add_items playlist_id) cs))
      (List.length cs) k ok.
Proof.
  intros Hauth cs.
  split; [apply chunks_length|].
  split; [apply chunks_bounded|].
  split; [apply chunks_concat|].
  destruct (issue_all_outcome env
              (map (sp_playlist_add_items playlist_id) cs) h)
    as (k & ok & Erun & Hout).
  exists k, ok. rewrite length_map in Hout. split; [|exact Hout].
  rewrite <- firstn_map, <- Erun.
  unfold add_tracks_to_playlist. rewrite Hauth.
  unfold try_except, bind. subst cs. unfold chunks.
  rewrite map_map, for_each_map. reflexivity.
Qed.

End AddTheorem.

(** Two hundred and fifty identifiers on a catalog that accepts them. *)
Lemma add_tracks_in_chunks_witness :
  List.length (chunks (repeat "u" 250)) = ceil_div 250 100 /\
  exists k ok,
    SpotifyService.add_tracks_to_playlist (Demo.world true true)
      Demo.service "pl1" (repeat "u" 250) []
    = (Ok ok, map (sp_playlist_add_items "pl1")
                  (firstn k (chunks (repeat "u" 250)))).
Proof.
  destruct (add_tracks_in_chunks (Demo.world true true) Demo.service
              (client := {| auth := "tok" |}) "pl1" (repeat "u" 250) []
              eq_refl) as (Hlen & _ & _ & k & ok & Erun & _).
  split.
  - rewrite Hlen. rewrite repeat_length. reflexivity.
  - exists k, ok. exact Erun.
Defined.

(** C6 as the specification words it: exactly [ceil(N/100)] calls for every
    sequence.  With 150 identifiers and a catalog that refuses additions,
    the first call raises and the second chunk is never sent. *)
Lemma add_tracks_stops_at_first_failure :
  snd (SpotifyService.add_tracks_to_playlist (Demo.world true false)
         Demo.service "pl1" (repeat "u" 150) [])
  = [sp_playlist_add_items "pl1" (repeat "u" 100)] /\
  List.length
    (snd (SpotifyService.add_tracks_to_playlist (Demo.world true false)
            Demo.service "pl1" (repeat "u" 150) []))
  <> ceil_div (List.length (repeat "u" 150)) 100.
Proof.
  split; [vm_compute; reflexivity|]. vm_compute. discriminate.
Qed.

(** ** The routes *)

Section RouteFacts.
Context `{CharTables}.
Variable env : Env.

Lemma Split_length {A} (l1 l2 l : list A) :
  Split l1 l2 l -> List.length l1 + List.length l2 = List.length l.
Proof. induction 1; simpl; lia. Qed.

Lemma search_track_returns (self : SpotifyService.t)
  (title artist : string) (h : list Call) :
  exists r h', SpotifyService.search_track env self title artist h
               = (Ok r, h').
Proof.
  destruct (SpotifyService.sp self) as [client|] eqn:E.
  - rewrite (search_track_authenticated env self title artist h E). eauto.
  - rewrite search_track_unauthenticated by exact E. eauto.
Qed.

Lemma create_playlist_returns (self : SpotifyService.t)
  (name description : string) (public : bool) (h : list Call) :
  exists r h', SpotifyService.create_playlist env self name description
                 public h = (Ok r, h').
Proof.
  unfold SpotifyService.create_playlist.
  destruct (SpotifyService.sp self); [|unfold ret; eauto].
  unfold try_except.
  match goal with |- context [match ?m h with _ => _ end] =>
    destruct (m h) as [[r|] h'] end; unfold ret; eauto.
Qed.

Lemma add_tracks_returns (self : SpotifyService.t) (playlist_id : string)
  (track_uris : list string) (h : list Call) :
  exists ok h', SpotifyService.add_tracks_to_playlist env self playlist_id
                  track_uris h = (Ok ok, h').
Proof.
  unfold SpotifyService.add_tracks_to_playlist.
  destruct (SpotifyService.sp self); [|unfold ret; eauto].
  unfold try_except.
  match goal with |- context [match ?m h with _ => _ end] =>
    destruct (m h) as [[r|] h'] end; unfold ret; eauto.
Qed.

(** The search loop never raises and puts every song on exactly one of the
    two lists; one identifier is kept per found song. *)
Lemma search_songs_split (self : SpotifyService.t) (songs : list Song.t) :
  forall found_tracks missing_tracks track_uris h,
  exists f m u h',
    search_songs env self songs found_tracks missing_tracks track_uris h
    = (Ok (found_tracks ++ f, missing_tracks ++ m, track_uris ++ u), h') /\
    Split (map song f) m songs /\
    List.length u = List.length f.
Proof.
  induction songs as [|s rest IH]; intros f0 m0 u0 h; simpl.
  - exists [], [], [], h. rewrite !app_nil_r. unfold ret.
    repeat split; constructor.
  - unfold bind at 1.
    destruct (search_track_returns self (Song.title s) (Song.artist s) h)
      as (r & h1 & E1). rewrite E1.
    destruct r as [info|]; unfold bind, sleep.
    + destruct (IH (f0 ++ [ {| song := s;
                              spotify_name := TrackInfo.name info;
                              spotify_artist := TrackInfo.artist info |} ])
                   m0 (u0 ++ [TrackInfo.uri info]) (h1 ++ [time_sleep]))
        as (f & m & u & h' & E & HS & Hlen).
      rewrite E, <- !app_assoc. simpl.
      eexists (_ :: f), m, (_ :: u), h'. split; [reflexivity|].
      split; [simpl; constructor; exact HS | simpl; lia].
    + destruct (IH f0 (m0 ++ [s]) u0 (h1 ++ [time_sleep]))
        as (f & m & u & h' & E & HS & Hlen).
      rewrite E, <- !app_assoc. simpl.
      exists f, (s :: m), u, h'. split; [reflexivity|].
      split; [constructor; exact HS | exact Hlen].
Qed.

End RouteFacts.

Section CreatePlaylistRun.
Context `{CharTables}.
Variable env : Env.

(** The stages of [/api/create_playlist] on an authenticated session. *)
Lemma create_playlist_run (session : Session) (self : SpotifyService.t)
  (data : CreateRequest.t) (today : string) (h : list Call)
  (credential : TokenInfo) :
  token_info session = Some credential ->
  exists songs h0,
    BillboardScraper.get_chart env (CreateRequest.date data) h
    = (Ok songs, h0) /\
    ((songs = [] /\
      create_playlist env session self data today h
      = (Ok (jsonify_with (error_body "Failed to fetch Billboard chart")
                          500), h0)) \/
     (songs <> [] /\
      exists f m u h1 pl h2,
        search_songs env self songs [] [] [] h0 = (Ok (f, m, u), h1) /\
        Split (map song f) m songs /\
        List.length u = List.length f /\
        SpotifyService.create_playlist env self
          (playlist_name_of data today) (description_of data)
          (public_of data) h1 = (Ok pl, h2) /\
        match pl with
        | None =>
            create_playlist env session self data today h
            = (Ok (jsonify_with
                     (error_body "Failed to create Spotify playlist") 500),
               h2)
        | Some p =>
            let added :=
              if nonempty u
              then SpotifyService.add_tracks_to_playlist env self
                     (Playlist.id p) u h2
              else (Ok false, h2) in
            create_playlist env session self data today h
            = (Ok (jsonify
                     (playlist_body
                        (if succeeded (fst added)
                         then "success" else "partial_success")
                        p
                        {| total_songs := List.length songs;
                           found := List.length f;
                           missing := List.length m |}
                        f m)),
               snd added)
        end)).
Proof.
  intros Hsession.
  destruct (get_chart_cases env (CreateRequest.date data) h)
    as (h0 & Hchart).
  assert (exists songs, BillboardScraper.get_chart env
                          (CreateRequest.date data) h = (Ok songs, h0))
    as (songs & Echart)
    by (destruct Hchart as [E | (soup & E)]; eauto).
  clear Hchart. exists songs, h0. split; [exact Echart|].
  destruct songs as [|s rest].
  { left. split; [reflexivity|].
    unfold create_playlist, bind. rewrite Hsession, Echart. reflexivity. }
  right. split; [discriminate|].
  destruct (search_songs_split env self (s :: rest) [] [] [] h0)
    as (f & m & u & h1 & Esearch & HS & Hlen).
  simpl app in Esearch.
  destruct (create_playlist_returns env self (playlist_name_of data today)
              (description_of data) (public_of data) h1)
    as (pl & h2 & Ecreate).
  exists f, m, u, h1, pl, h2.
  repeat (split; [assumption|]).
  destruct pl as [p|].
  - destruct (nonempty u) eqn:Eu.
    + destruct (add_tracks_returns env self (Playlist.id p) u h2)
        as (ok & h3 & Eadd).
      unfold create_playlist, bind.
      rewrite Hsession, Echart. cbn [nonempty negb].
      rewrite Esearch, Ecreate, Eu, Eadd. destruct ok; reflexivity.
    + unfold create_playlist, bind.
      rewrite Hsession, Echart. cbn [nonempty negb].
      rewrite Esearch, Ecreate, Eu. reflexivity.
  - unfold create_playlist, bind.
    rewrite Hsession, Echart. cbn [nonempty negb].
    rewrite Esearch, Ecreate. reflexivity.
Qed.

End CreatePlaylistRun.

Ltac emits_step :=
  match goal with
  | |- emits _ (bind _ _) => apply emits_bind; [|intros ?]
  | |- emits _ (try_except _ _) => apply emits_try
  | |- emits _ (ret _) => apply emits_ret
  | |- emits _ raise => apply emits_raise
  | |- emits _ (call _ _) => apply emits_call
  | |- emits _ sleep => apply emits_sleep
  | |- emits _ (for_each _ _) => apply emits_for_each; intros ?
  | |- emits _ (match ?x with _ => _ end) => destruct x
  end.

Section Traces.
Context `{CharTables}.
Variable env : Env.
Variable P : Call -> Prop.

Lemma emits_get_chart (date : option string) :
  (forall url, P (requests_get url)) ->
  emits P (BillboardScraper.get_chart env date).
Proof.
  intros Hget. unfold BillboardScraper.get_chart, BillboardScraper.fetch_soup.
  repeat emits_step; auto.
Qed.

Lemma emits_search_loop (qs : list string) :
  (forall q, P (sp_search q)) -> emits P (SpotifyService.search_loop env qs).
Proof.
  intros Hsearch. induction qs as [|q rest IH]; simpl.
  - apply emits_ret.
  - unfold SpotifyService.search, SpotifyService.track_info.
    repeat emits_step; auto.
Qed.

Lemma emits_search_track (self : SpotifyService.t) (title artist : string) :
  (forall q, P (sp_search q)) ->
  emits P (SpotifyService.search_track env self title artist).
Proof.
  intros Hsearch. unfold SpotifyService.search_track.
  destruct (SpotifyService.sp self); [|apply emits_ret].
  apply emits_try; [|apply emits_ret].
  apply emits_search_loop, Hsearch.
Qed.

Lemma emits_search_songs (self : SpotifyService.t) (songs : list Song.t) :
  (forall q, P (sp_search q)) -> P time_sleep ->
  forall found_tracks missing_tracks track_uris,
    emits P (search_songs env self songs found_tracks missing_tracks
               track_uris).
Proof.
  intros Hsearch Hsleep.
  induction songs as [|s rest IH]; intros f m u; simpl.
  - apply emits_ret.
  - apply emits_bind; [apply emits_search_track, Hsearch|].
    intros [info|]; (apply emits_bind; [apply emits_sleep, Hsleep|]);
      intros _; apply IH.
Qed.

Lemma emits_create_playlist (self : SpotifyService.t)
  (name description : string) (public : bool) :
  P sp_current_user ->
  (forall user, P (sp_user_playlist_create user name description public)) ->
  emits P (SpotifyService.create_playlist env self name description public).
Proof.
  intros Huser Hcreate.
  unfold SpotifyService.create_playlist, SpotifyService.current_user,
    SpotifyService.user_playlist_create.
  repeat emits_step; auto.
Qed.

Lemma emits_add_tracks (self : SpotifyService.t) (playlist_id : string)
  (track_uris : list string) :
  (forall items, P (sp_playlist_add_items playlist_id items)) ->
  emits P (SpotifyService.add_tracks_to_playlist env self playlist_id
             track_uris).
Proof.
  intros Hadd. unfold SpotifyService.add_tracks_to_playlist.
  repeat emits_step; auto.
Qed.

Lemma emits_create_playlist_route (session : Session)
  (self : SpotifyService.t) (data : CreateRequest.t) (today : string) :
  (forall url, P (requests_get url)) ->
  (forall q, P (sp_search q)) ->
  P time_sleep ->
  P sp_current_user ->
  (forall user name description,
     P (sp_user_playlist_create user name description (public_of data))) ->
  (forall playlist_id items, P (sp_playlist_add_items playlist_id items)) ->
  emits P (create_playlist env session self data today).
Proof.
  intros Hget Hsearch Hsleep Huser Hcreate Hadd. unfold create_playlist.
  destruct (token_info session); [|apply emits_ret].
  apply emits_bind; [apply emits_get_chart, Hget|]. intros songs.
  destruct (negb (nonempty songs)); [apply emits_ret|].
  apply emits_bind; [apply emits_search_songs; assumption|].
  intros [[f m] u].
  apply emits_bind; [apply emits_create_playlist; auto|].
  intros [p|]; [|apply emits_ret].
  apply emits_bind; [|intros ?; apply emits_ret].
  destruct (nonempty u); [apply emits_add_tracks; auto | apply emits_ret].
Qed.

End Traces.

Section Histories.
Context `{CharTables}.
Variable env : Env.

(** The history only grows. *)
Lemma emits_extends {A} (m : M A) (P : Call -> Prop) (h : list Call) :
  emits P m -> exists calls, snd (m h) = h ++ calls.
Proof. intros Hm. destruct (Hm h) as (calls & E & _). eauto. Qed.

(** A playlist comes out of exactly two calls, the second one creating it
    with the visibility asked for. *)
Lemma create_playlist_created (self : SpotifyService.t)
  (name description : string) (public : bool) (p : Playlist.t)
  (h h' : list Call) :
  SpotifyService.create_playlist env self name description public h
  = (Ok (Some p), h') ->
  exists user,
    h' = h ++ [sp_current_user;
               sp_user_playlist_create user name description public].
Proof.
  unfold SpotifyService.create_playlist, SpotifyService.current_user,
    SpotifyService.user_playlist_create.
  destruct (SpotifyService.sp self); [|unfold ret; discriminate].
  unfold try_except, bind, call, ret, raise. cbn.
  destruct (env h sp_current_user) as [| | | |u| |]; cbn; try discriminate.
  destruct (env (h ++ [sp_current_user])
              (sp_user_playlist_create (user_id u) name description public));
    cbn; try discriminate.
  intros E. injection E as _ <-. exists (user_id u).
  rewrite <- app_assoc. reflexivity.
Qed.

End Histories.

Section RouteTheorems.
Context `{CharTables}.
Variable env : Env.

(** C1. [/api/create_playlist] always answers, and whenever the answer
    carries the statistics, every entry of the fetched chart is on exactly
    one of [found_tracks] and [missing_tracks], the three counts are the
    lengths of these two lists and of the chart, and
    [found + missing = total_songs]. *)
Theorem create_playlist_counts (session : Session)
  (self : SpotifyService.t) (data : CreateRequest.t) (today : string)
  (h : list Call) :
  exists resp h',
    create_playlist env session self data today h = (Ok resp, h') /\
    match body resp with
    | playlist_body _ _ stats found_tracks missing_tracks =>
        exists songs h0,
          BillboardScraper.get_chart env (CreateRequest.date data) h
          = (Ok songs, h0) /\
          Split (map song found_tracks) missing_tracks songs /\
          total_songs stats = List.length songs /\
          found stats = List.length found_tracks /\
          missing stats = List.length missing_tracks /\
          found stats + missing stats = total_songs stats
    | _ => True
    end.
Proof.
  destruct (token_info session) as [credential|] eqn:Hsession.
  - destruct (create_playlist_run env session self data today h Hsession)
      as (songs & h0 & Echart & [[_ Erun] | (_ & Hrun)]).
    + rewrite Erun. do 2 eexists. split; [reflexivity|]. exact I.
    + destruct Hrun as (f & m & u & h1 & pl & h2 & _ & HS & _ & _ & Erun).
      destruct pl as [p|]; rewrite Erun; do 2 eexists;
        (split; [reflexivity|]); [|exact I].
      simpl. exists songs, h0. pose proof (Split_length HS) as Hlen.
      rewrite length_map in Hlen. repeat split; auto.
  - unfold create_playlist. rewrite Hsession. unfold ret.
    do 2 eexists. split; [reflexivity|]. exact I.
Qed.

(** C3 (as the code has it). When [/api/create_playlist] answers with a
    playlist, the status is ["success"] exactly when at least one track was
    found and the add step over the found identifiers returned [True]; it is
    ["partial_success"] otherwise, which covers the add step failing and
    the add step being skipped because nothing was found. *)
Theorem create_playlist_status (session : Session)
  (self : SpotifyService.t) (data : CreateRequest.t) (today : string)
  (h h' : list Call) (status : string) (p : Playlist.t) (stats : Stats)
  (found_tracks : list FoundTrack) (missing_tracks : list Song.t) :
  create_playlist env session self data today h
  = (Ok (jsonify (playlist_body status p stats found_tracks
                    missing_tracks)), h') ->
  exists songs h0 track_uris h1 h2,
    BillboardScraper.get_chart env (CreateRequest.date data) h
    = (Ok songs, h0) /\
    search_songs env self songs [] [] [] h0
    = (Ok (found_tracks, missing_tracks, track_uris), h1) /\
    List.length track_uris = List.length found_tracks /\
    SpotifyService.create_playlist env self (playlist_name_of data today)
      (description_of data) (public_of data) h1 = (Ok (Some p), h2) /\
    status
    = (if nonempty track_uris
          && succeeded (fst (SpotifyService.add_tracks_to_playlist env self
                               (Playlist.id p) track_uris h2))
       then "success" else "partial_success").
Proof.
  intros Erun.
  destruct (token_info session) as [credential|] eqn:Hsession.
  2: { unfold create_playlist in Erun. rewrite Hsession in Erun.
       discriminate. }
  destruct (create_playlist_run env session self data today h Hsession)
    as (songs & h0 & Echart & [[_ E] | (_ & Hrun)]).
  { rewrite E in Erun. discriminate. }
  destruct Hrun as (f & m & u & h1 & pl & h2 & Esearch & _ & Hlen
                    & Ecreate & E).
  destruct pl as [p0|]; rewrite E in Erun; [|discriminate].
  injection Erun as Hstatus <- _ <- <- _.
  exists songs, h0, u, h1, h2. repeat (split; [assumption|]).
  rewrite <- Hstatus. destruct (nonempty u); reflexivity.
Qed.

(** C10. A request body without the [public] flag never leads to a call
    creating a playlist that is not public; and when the route answers with
    a playlist, the call that created it is there, under the name and
    description of the request, with [public=True]. *)
Theorem playlist_public_by_default (session : Session)
  (self : SpotifyService.t) (data : CreateRequest.t) (today : string)
  (h : list Call) :
  CreateRequest.public data = None ->
  exists calls,
    snd (create_playlist env session self data today h) = h ++ calls /\
    (forall user name description public,
       In (sp_user_playlist_create user name description public) calls ->
       public = true) /\
    (forall status p stats found_tracks missing_tracks,
       fst (create_playlist env session self data today h)
       = Ok (jsonify (playlist_body status p stats found_tracks
                        missing_tracks)) ->
       exists user,
         In (sp_user_playlist_create user (playlist_name_of data today)
               (description_of data) true) calls).
Proof.
  intros Hpublic.
  assert (Hdefault : public_of data = true)
    by (unfold public_of; rewrite Hpublic; reflexivity).
  destruct (@emits_create_playlist_route _ env creates_public session self
              data today) with (h := h) as (calls & Ecalls & Hcalls);
    simpl; auto.
  exists calls. split; [exact Ecalls|]. split.
  - intros user name description public Hin.
    rewrite Forall_forall in Hcalls. exact (Hcalls _ Hin).
  - intros status p stats f m Eresp.
    destruct (token_info session) as [credential|] eqn:Hsession.
    2: { unfold create_playlist in Eresp. rewrite Hsession in Eresp.
         discriminate. }
    destruct (create_playlist_run env session self data today h Hsession)
      as (songs & h0 & Echart & [[_ E] | (_ & Hrun)]).
    { rewrite E in Eresp. discriminate. }
    destruct Hrun as (f0 & m0 & u & h1 & pl & h2 & Esearch & _ & _
                      & Ecreate & E).
    destruct pl as [p0|]; rewrite E in Eresp, Ecalls; [|discriminate].
    clear Eresp E.
    destruct (create_playlist_created env self _ _ _ h1 Ecreate)
      as (user & Eh2).
    destruct (@emits_extends _ _ _ h
                (@emits_get_chart _ env (fun _ => True)
                   (CreateRequest.date data) (fun _ => I))) as (c0 & E0).
    rewrite Echart in E0. simpl in E0.
    destruct (@emits_extends _ _ _ h0
                (@emits_search_songs _ env (fun _ => True) self songs
                   (fun _ => I) I [] [] [])) as (c1 & E1).
    rewrite Esearch in E1. simpl in E1.
    assert (exists c3,
              snd (if nonempty u
                   then SpotifyService.add_tracks_to_playlist env self
                          (Playlist.id p0) u h2
                   else (Ok false, h2)) = h2 ++ c3) as (c3 & E3).
    { destruct (nonempty u).
      - apply (@emits_extends _ _ _ h2
                 (@emits_add_tracks env (fun _ => True) self
                    (Playlist.id p0) u (fun _ => I))).
      - exists []. simpl. now rewrite app_nil_r. }
    simpl in Ecalls. rewrite E3, Eh2, E1, E0 in Ecalls.
    rewrite <- !app_assoc in Ecalls. apply app_inv_head in Ecalls.
    exists user. rewrite <- Ecalls, Hdefault in *.
    apply in_or_app. right. apply in_or_app. right.
    simpl. auto.
Qed.

(** C2 (as the code has it). A request to [/api/search_track] without a
    title or without an artist is answered 400 when the session holds a
    credential, and 401 when it holds none; no call is made. *)
Theorem search_track_missing_parameter (session : Session)
  (self : SpotifyService.t) (args : SearchArgs.t) (h : list Call) :
  truthy_opt_str (SearchArgs.title args) = false \/
  truthy_opt_str (SearchArgs.artist args) = false ->
  search_track env session self args h
  = (Ok (match token_info session with
         | Some _ => jsonify_with (error_body "Title and artist required")
                                  400
         | None => jsonify_with (error_body "Not authenticated") 401
         end), h).
Proof.
  intros Hmissing. unfold search_track.
  destruct (token_info session); [|reflexivity].
  destruct (SearchArgs.title args) as [title|],
           (SearchArgs.artist args) as [artist|]; try reflexivity.
  simpl in Hmissing.
  destruct Hmissing as [E | E]; rewrite E; simpl;
    [|rewrite orb_true_r]; reflexivity.
Qed.

(** C5 (as the code has it). [/api/status] fetches the profile only when
    the session holds a credential and the service object has a client;
    an exception in that fetch gives [authenticated: false].  Without a
    credential the answer is [authenticated: false, user: null]; with a
    credential but no client it is [authenticated: true, user: null], and
    nothing is fetched. *)
Theorem status_route (session : Session) (self : SpotifyService.t)
  (h : list Call) :
  status env session self h
  = match token_info session, SpotifyService.sp self with
    | None, _ => (Ok (jsonify (status_body false None)), h)
    | Some _, None => (Ok (jsonify (status_body true None)), h)
    | Some _, Some _ =>
        (Ok (match env h sp_current_user with
             | user_reply u => jsonify (status_body true (Some u))
             | _ => jsonify (status_body false None)
             end),
         h ++ [sp_current_user])
    end.
Proof.
  unfold status.
  destruct (token_info session), (SpotifyService.sp self); try reflexivity.
  unfold try_except, bind, SpotifyService.current_user, call, ret, raise.
  cbn. destruct (env h sp_current_user); reflexivity.
Qed.

End RouteTheorems.

(** ** The routes in the demo world *)

(** Both songs of the demo chart are found: statistics 2 = 2 + 0. *)
Example create_playlist_counts_demo :
  exists status p found_tracks h',
    create_playlist (Demo.world true true) Demo.logged_in Demo.service
      Demo.request "2024-01-06" []
    = (Ok (jsonify (playlist_body status p
                      {| total_songs := 2; found := 2; missing := 0 |}
                      found_tracks [])), h').
Proof. do 4 eexists. vm_compute. reflexivity. Qed.

(** Tracks found and added: the status is ["success"]. *)
Lemma create_playlist_status_witness :
  exists track_uris h2,
    "success"
    = (if nonempty track_uris
          && succeeded
               (fst (SpotifyService.add_tracks_to_playlist
                       (Demo.world true true) Demo.service "pl1"
                       track_uris h2))
       then "success" else "partial_success").
Proof.
  edestruct (@create_playlist_status _ (Demo.world true true)
               Demo.logged_in Demo.service Demo.request "2024-01-06" [])
    as (songs & h0 & u & h1 & h2 & _ & _ & _ & _ & Estatus).
  - vm_compute. reflexivity.
  - exists u, h2. exact Estatus.
Defined.

(** C3 as the specification words it: the status would follow the outcome
    of the add step over the found identifiers.  When the catalog has no
    hit, no identifier is found; the add step over none of them returns
    [True] from any history, without a call; the route does not run it and
    answers ["partial_success"]. *)
Lemma create_playlist_nothing_found_is_partial :
  (exists p stats missing_tracks h',
     create_playlist (Demo.world false true) Demo.logged_in Demo.service
       Demo.request "2024-01-06" []
     = (Ok (jsonify (playlist_body "partial_success" p stats []
                       missing_tracks)), h')) /\
  (forall playlist_id h2,
     SpotifyService.add_tracks_to_playlist (Demo.world false true)
       Demo.service playlist_id [] h2 = (Ok true, h2)).
Proof.
  split.
  - do 4 eexists. vm_compute. reflexivity.
  - intros playlist_id h2. reflexivity.
Qed.

(** No [public] flag in the body: the playlist is created public. *)
Lemma playlist_public_by_default_witness :
  exists user,
    In (sp_user_playlist_create user "Billboard Hot 100 - 2024-01-06"
          (description_of Demo.request) true)
       (snd (create_playlist (Demo.world true true) Demo.logged_in
               Demo.service Demo.request "2024-01-06" [])).
Proof.
  destruct (@playlist_public_by_default _ (Demo.world true true)
              Demo.logged_in Demo.service Demo.request "2024-01-06" []
              eq_refl) as (calls & Ecalls & _ & Hcreated).
  edestruct Hcreated as (user & Hin).
  - vm_compute. reflexivity.
  - exists user. rewrite Ecalls. exact Hin.
Defined.

(** With a credential and no artist: 400. *)
Lemma search_track_missing_parameter_witness :
  search_track (Demo.world true true) Demo.logged_in Demo.service
    (SearchArgs.mk (Some "Song A") None) []
  = (Ok (jsonify_with (error_body "Title and artist required") 400), []).
Proof.
  apply (@search_track_missing_parameter _ (Demo.world true true)
           Demo.logged_in Demo.service
           (SearchArgs.mk (Some "Song A") None) []).
  right. reflexivity.
Defined.

(** C2 as the specification words it: 400 whatever the authentication
    state.  Without a credential the same request is answered 401. *)
Lemma search_track_anonymous_is_401 :
  exists resp,
    search_track (Demo.world true true) Demo.anonymous Demo.service
      (SearchArgs.mk (Some "Song A") None) [] = (Ok resp, []) /\
    http_status resp = 401 /\
    http_status resp <> 400.
Proof.
  eexists. split; [reflexivity|]. split; [reflexivity|]. discriminate.
Qed.

(** C5 as the specification words it: a credential in the session would
    always lead to a profile fetch.  On a service object without client
    (a fresh process, the cookie surviving), the session holds a credential,
    no call is made, and the answer is [authenticated: true]. *)
Lemma status_without_client_fetches_nothing :
  token_info Demo.logged_in = Some Demo.credential /\
  status (Demo.world true true) Demo.logged_in SpotifyService.init []
  = (Ok (jsonify (status_body true None)), []).
Proof. split; reflexivity. Qed.

(** * More of the service *)

(** ** Trimming *)

Section StripFacts.
Context `{CharTables}.





End StripFacts.

(** ** The chart, entry by entry *)

Section ChartEntries.
Context `{CharTables}.
Import BillboardScraper.

Lemma chart_loop_increasing (elements : list Element) :
  forall i a b s t,
    a < b ->
    nth_error (chart_loop i elements) a = Some s ->
    nth_error (chart_loop i elements) b = Some t ->
    Song.position s < Song.position t.
Proof.
  induction elements as [|e rest IH]; intros i a b s t Hab; simpl.
  - destruct a; discriminate.
  - destruct (valid_title (strip (get_text e))); [|apply IH; exact Hab].
    destruct b as [|b]; [lia|]. destruct a as [|a]; simpl.
    + intros Es Et. injection Es as <-. simpl.
      apply nth_error_In, chart_loop_above in Et. lia.
    + apply IH. lia.
Qed.



Lemma select_first_cases (soup : Soup) (sels : list string) :
  (exists before s after,
     sels = before ++ s :: after /\
     Forall (fun x => select soup x = []) before /\
     select soup s <> [] /\
     select_first soup sels = select soup s) \/
  (Forall (fun x => select soup x = []) sels /\ select_first soup sels = []).
Proof.
  induction sels as [|x rest IH]; simpl.
  - right. split; [constructor | reflexivity].
  - destruct (select soup x) as [|e es] eqn:Ex; simpl.
    + destruct IH as [(before & s & after & -> & Hb & Hs & E) | [Hall E]].
      * left. exists (x :: before), s, after. repeat split; auto.
      * right. split; auto.
    + left. exists [], x, rest. rewrite Ex. repeat split; auto.
      discriminate.
Qed.

Lemma song_elements_fallback (soup : Soup) :
  Forall (fun x => select soup x = []) selectors ->
  song_elements soup = find_all_h3 soup.
Proof.
  intros Hnone. unfold song_elements.
  destruct (select_first_cases soup selectors)
    as [(before & s & after & E & _ & Hs & _) | [_ ->]]; [|reflexivity].
  rewrite E in Hnone. apply Forall_app in Hnone. destruct Hnone as [_ Hs'].
  inversion Hs'; subst. contradiction.
Qed.

Lemma parse_chart_nonempty (soup : Soup) :
  parse_chart soup <> [] <->
  exists i element,
    i < 100 /\ nth_error (song_elements soup) i = Some element /\
    2 <= String.length (strip (get_text element)).
Proof.
  rewrite parse_chart_loop. split.
  - intros Hne.
    destruct (chart_loop 0 (firstn 100 (song_elements soup)))
      as [|s rest] eqn:E; [congruence|].
    assert (Hin : In s (chart_loop 0 (firstn 100 (song_elements soup))))
      by (rewrite E; left; reflexivity).
    apply chart_loop_In in Hin. destruct Hin as (j & e & Hj & Hv & _).
    rewrite nth_error_firstn in Hj.
    destruct (j <? 100) eqn:Hlt; [|discriminate].
    apply Nat.ltb_lt in Hlt. apply valid_title_length in Hv. eauto.
  - intros (i & e & Hi & Hnth & Hlen) Hempty.
    assert (Hin : In (Song.mk (0 + i + 1) (strip (get_text e))
                        (artist_of (strip (get_text e)) e))
                     (chart_loop 0 (firstn 100 (song_elements soup)))).
    { apply chart_loop_In. exists i, e. rewrite nth_error_firstn.
      apply Nat.ltb_lt in Hi. rewrite Hi.
      apply valid_title_length in Hlen. auto. }
    rewrite Hempty in Hin. exact Hin.
Qed.

(** X1. The chart is in rank order: positions grow strictly along the
    list. *)
Theorem chart_in_rank_order (soup : Soup) (a b : nat) (s t : Song.t) :
  a < b ->
  nth_error (parse_chart soup) a = Some s ->
  nth_error (parse_chart soup) b = Some t ->
  Song.position s < Song.position t.
Proof. rewrite parse_chart_loop. apply chart_loop_increasing. Qed.


(** X3. The elements read are those of the first of the four selectors, in
    their order, that matches anything; the headings are read only when none
    of the four matches. *)
Theorem selector_cascade (soup : Soup) :
  (exists before s after,
     selectors = before ++ s :: after /\
     Forall (fun x => select soup x = []) before /\
     select soup s <> [] /\
     song_elements soup = select soup s) \/
  (Forall (fun x => select soup x = []) selectors /\
   song_elements soup = find_all_h3 soup).
Proof.
  unfold song_elements.
  destruct (select_first_cases soup selectors)
    as [(before & s & after & E & Hb & Hs & ->) | [Hall ->]].
  - left. exists before, s, after.
    destruct (select soup s); [congruence|]. auto.
  - right. auto.
Qed.

(** X4. When no selector matches, the heading fallback yields a non-empty
    chart exactly when one of the first 100 headings has a trimmed text of
    at least two characters. *)
Theorem heading_fallback_nonempty (soup : Soup) :
  Forall (fun x => select soup x = []) selectors ->
  (parse_chart soup <> [] <->
   exists i element,
     i < 100 /\ nth_error (find_all_h3 soup) i = Some element /\
     2 <= String.length (strip (get_text element))).
Proof.
  intros Hnone. rewrite parse_chart_nonempty.
  rewrite (song_elements_fallback soup Hnone). reflexivity.
Qed.

End ChartEntries.

Lemma chart_in_rank_order_witness :
  Song.position (Song.mk 1 "Song A" "Some Artist")
  < Song.position (Song.mk 3 "Song B" "Some Artist").
Proof.
  apply (@chart_in_rank_order _ Demo.soup 0 1).
  - lia.
  - reflexivity.
  - reflexivity.
Defined.


Lemma heading_fallback_nonempty_witness :
  BillboardScraper.parse_chart Demo.headings <> [].
Proof.
  apply (@heading_fallback_nonempty _ Demo.headings).
  - repeat constructor.
  - exists 0, (Demo.element "Hot 100").
    split; [lia|]. split; [reflexivity|]. vm_compute. lia.
Defined.

(** ** Fetching the chart *)

Section ChartFetch.
Context `{CharTables}.
Variable env : Env.
Import BillboardScraper.

Lemma get_chart_run (date : option string) (h : list Call) :
  get_chart env date h
  = (Ok (match env h (requests_get (chart_url date)) with
         | html_reply soup => parse_chart soup
         | _ => []
         end),
     h ++ [requests_get (chart_url date)]).
Proof.
  change (get_chart env date h)
    with (try_except (soup <- fetch_soup env (chart_url date) ;;
                      ret (parse_chart soup)) (ret []) h).
  cbv beta delta [try_except bind fetch_soup call ret raise].
  destruct (env h (requests_get (chart_url date))); reflexivity.
Qed.

(** X5. [get_chart] makes exactly one request, to the chart address
    followed by the date when one is given and non-empty; it never raises:
    when the request fails it returns the empty list, otherwise the chart
    parsed from the page. *)
Theorem get_chart_one_request (date : option string) (h : list Call) :
  get_chart env date h
  = (Ok (match env h (requests_get (chart_url date)) with
         | html_reply soup => parse_chart soup
         | _ => []
         end),
     h ++ [requests_get (chart_url date)]) /\
  chart_url date
  = match date with
    | None | Some "" => "https://www.billboard.com/charts/hot-100"
    | Some d => ("https://www.billboard.com/charts/hot-100/" ++ d)%string
    end.
Proof.
  split; [apply get_chart_run|].
  destruct date as [[|c d]|]; reflexivity.
Qed.

Variable strptime_ok : string -> bool.

(** X6. [/api/charts] with a non-empty date that does not parse is answered
    400 without any request being made. *)
Theorem get_charts_invalid_date (d : string) (h : list Call) :
  d <> "" ->
  strptime_ok d = false ->
  get_charts env strptime_ok (Some d) h
  = (Ok {| charts_json := charts_error "Invalid date format. Use YYYY-MM-DD";
           charts_status := 400 |}, h).
Proof.
  intros Hd Hbad. unfold get_charts.
  destruct d; [congruence|]. simpl. rewrite Hbad. reflexivity.
Qed.

(** X7. In every other case [/api/charts] makes the one request of
    [get_chart] and answers 500 when the chart comes back empty, else 200
    with the chart, its length (1 to 100) as [total_songs], and as [date]
    the date given or ["current"], which is also the label of an empty
    date. *)
Theorem get_charts_fetches (date : option string) (h : list Call) :
  match date with
  | None | Some "" => True
  | Some d => strptime_ok d = true
  end ->
  exists songs,
    get_chart env date h = (Ok songs, h ++ [requests_get (chart_url date)]) /\
    get_charts env strptime_ok date h
    = (Ok (match songs with
           | [] => {| charts_json := charts_error "Failed to fetch chart data";
                      charts_status := 500 |}
           | _ => {| charts_json :=
                       charts_body (match date with
                                    | None | Some "" => "current"
                                    | Some d => d
                                    end)
                                   (List.length songs) songs;
                     charts_status := 200 |}
           end),
       h ++ [requests_get (chart_url date)]) /\
    List.length songs <= 100.
Proof.
  intros Hvalid.
  pose proof (get_chart_run date h) as Erun.
  set (songs := match env h (requests_get (chart_url date)) with
                | html_reply soup => parse_chart soup
                | _ => []
                end) in *.
  exists songs. split; [exact Erun|]. split.
  - assert (Efetch :
      (songs0 <- get_chart env date ;;
       if negb (nonempty songs0)
       then ret {| charts_json := charts_error "Failed to fetch chart data";
                   charts_status := 500 |}
       else ret {| charts_json := charts_body (or_default date "current")
                                    (List.length songs0) songs0;
                   charts_status := 200 |}) h
      = (Ok (match songs with
             | [] => {| charts_json :=
                          charts_error "Failed to fetch chart data";
                        charts_status := 500 |}
             | _ => {| charts_json :=
                         charts_body (match date with
                                      | None | Some "" => "current"
                                      | Some d => d
                                      end)
                                     (List.length songs) songs;
                       charts_status := 200 |}
             end),
         h ++ [requests_get (chart_url date)])).
    { unfold bind. rewrite Erun.
      destruct songs as [|s rest]; [reflexivity|].
      destruct date as [[|c d]|]; reflexivity. }
    unfold get_charts. destruct date as [d|]; [|exact Efetch].
    destruct d as [|c d]; [exact Efetch|]. simpl truthy_str. cbv iota.
    rewrite Hvalid. exact Efetch.
  - subst songs.
    destruct (env h (requests_get (chart_url date))); simpl; try lia.
    unfold parse_chart. apply firstn_le_length.
Qed.

End ChartFetch.

(** A date that the stand-in refuses. *)
Lemma get_charts_invalid_date_witness :
  get_charts (Demo.world true true) Demo.strptime_ok (Some "2024-13-01") []
  = (Ok {| charts_json := charts_error "Invalid date format. Use YYYY-MM-DD";
           charts_status := 400 |}, []).
Proof.
  apply (@get_charts_invalid_date _ (Demo.world true true)
           Demo.strptime_ok "2024-13-01" []).
  - discriminate.
  - reflexivity.
Defined.

(** The date that it accepts is echoed with the two entries of the demo
    chart. *)
Lemma get_charts_fetches_witness :
  exists songs,
    fst (get_charts (Demo.world true true) Demo.strptime_ok
           (Some "2024-01-06") [])
    = Ok {| charts_json := charts_body "2024-01-06" 2 songs;
            charts_status := 200 |}.
Proof.
  destruct (@get_charts_fetches _ (Demo.world true true) Demo.strptime_ok
              (Some "2024-01-06") [] eq_refl)
    as (songs & Echart & Eroute & _).
  exists songs. rewrite Eroute.
  vm_compute in Echart. injection Echart as <-. reflexivity.
Defined.

(** ** The service object over time *)

Section ServiceLife.
Context `{CharTables}.
Variable env : Env.
Import SpotifyService.

Lemma authenticate_run (self : t) (code : string) (h : list Call) :
  authenticate env self code h
  = (Ok (match env h (get_access_token code) with
         | token_reply token_info =>
             (Some token_info,
              {| sp := Some {| auth := access_token token_info |} |})
         | _ => (None, self)
         end),
     h ++ [get_access_token code]).
Proof.
  cbv beta delta [authenticate try_except bind call ret raise].
  destruct (env h (get_access_token code)); reflexivity.
Qed.

Lemma create_playlist_run_service (self : t) (client : Spotify)
  (name description : string) (public : bool) (h : list Call) :
  sp self = Some client ->
  create_playlist env self name description public h
  = match env h sp_current_user with
    | user_reply u =>
        (Ok (match env (h ++ [sp_current_user])
                       (sp_user_playlist_create (user_id u) name description
                          public) with
             | playlist_reply p => Some p
             | _ => None
             end),
         h ++ [sp_current_user;
               sp_user_playlist_create (user_id u) name description public])
    | _ => (Ok None, h ++ [sp_current_user])
    end.
Proof.
  intros Hauth. unfold create_playlist. rewrite Hauth.
  cbv beta delta [try_except bind current_user user_playlist_create call ret
                  raise].
  destruct (env h sp_current_user) as [| | | |u| |]; try reflexivity.
  cbn [outcome]. rewrite <- app_assoc. cbn [app].
  destruct (env (h ++ [sp_current_user])
              (sp_user_playlist_create (user_id u) name description public));
    reflexivity.
Qed.

(** What one invocation does to the client and to the history. *)
Lemma invoke_run (self : t) (op : Op) (h : list Call) :
  exists r self' h',
    invoke env self op h = (Ok (r, self'), h') /\
    sp self' = latest_client (sp self) [r] /\
    (sp self = None ->
     h' = h ++ map get_access_token (auth_codes [op])).
Proof.
  destruct op; simpl invoke.
  - rewrite authenticate_run.
    destruct (env h (get_access_token code)); do 3 eexists;
      (split; [reflexivity|]); split; reflexivity.
  - destruct (search_track_returns env self title artist h)
      as (r & h' & E).
    unfold bind. rewrite E. do 3 eexists.
    split; [reflexivity|]. split; [reflexivity|].
    intros Hnone. rewrite search_track_unauthenticated in E by exact Hnone.
    injection E as _ <-. simpl. now rewrite app_nil_r.
  - destruct (create_playlist_returns env self name description public h)
      as (r & h' & E).
    unfold bind. rewrite E. do 3 eexists.
    split; [reflexivity|]. split; [reflexivity|].
    intros Hnone. unfold create_playlist in E. rewrite Hnone in E.
    injection E as _ <-. simpl. now rewrite app_nil_r.
  - destruct (add_tracks_returns env self playlist_id track_uris h)
      as (r & h' & E).
    unfold bind. rewrite E. do 3 eexists.
    split; [reflexivity|]. split; [reflexivity|].
    intros Hnone. unfold add_tracks_to_playlist in E. rewrite Hnone in E.
    injection E as _ <-. simpl. now rewrite app_nil_r.
Qed.


Lemma latest_client_failed (results : list (option TokenInfo)) :
  forall client,
    Forall (fun r => r = None) results ->
    latest_client client results = client.
Proof.
  induction results as [|r rest IH]; intros client Hall; simpl;
    [reflexivity|].
  inversion Hall; subst. apply IH. assumption.
Qed.

Lemma invoke_all_run (ops : list Op) :
  forall self h,
  exists results self' h',
    invoke_all env self ops h = (Ok (results, self'), h') /\
    List.length results = List.length ops /\
    sp self' = latest_client (sp self) results /\
    (sp self = None ->
     Forall (fun r => r = None) results ->
     h' = h ++ map get_access_token (auth_codes ops)).
Proof.
  induction ops as [|op rest IH]; intros self h.
  - exists [], self, h. simpl. unfold ret. rewrite app_nil_r. auto.
  - destruct (invoke_run self op h) as (r & self1 & h1 & E1 & Hsp1 & Hh1).
    destruct (IH self1 h1) as (rs & self2 & h2 & E2 & Hlen & Hsp2 & Hh2).
    exists (r :: rs), self2, h2. split; [|split; [|split]].
    + simpl. unfold bind at 1. rewrite E1. cbn [snd fst].
      unfold bind, ret. rewrite E2. reflexivity.
    + simpl. lia.
    + rewrite Hsp2, Hsp1. reflexivity.
    + intros Hnone Hall. inversion Hall as [|? ? Hr Hrs]; subst.
      simpl in Hsp1. rewrite Hnone in Hsp1.
      rewrite Hh2, Hh1 by assumption.
      rewrite <- app_assoc, <- map_app. simpl auth_codes.
      rewrite app_nil_r. reflexivity.
Qed.


(** X9. Until an authentication succeeds, the service object makes no
    call to the catalog: the only calls are the token exchanges of the
    authentications attempted, one each, in order. *)
Theorem no_catalog_call_before_authentication (ops : list Op)
  (results : list (option TokenInfo)) (self : t) (h h' : list Call) :
  invoke_all env init ops h = (Ok (results, self), h') ->
  Forall (fun r => r = None) results ->
  h' = h ++ map get_access_token (auth_codes ops).
Proof.
  intros Erun Hall.
  destruct (invoke_all_run ops init h)
    as (results0 & self0 & h0 & E & _ & _ & Hh).
  rewrite E in Erun. injection Erun as -> -> ->.
  apply Hh; [reflexivity | exact Hall].
Qed.

(** X10. On an authenticated object [create_playlist] never raises; it
    first fetches the profile and, if that fails, returns [None] without
    asking for a playlist; otherwise it asks for one playlist, under the
    profile's id and with the name, description and visibility given, and
    returns it, or [None] if that call fails. *)
Theorem create_playlist_after_profile (self : t) (client : Spotify)
  (name description : string) (public : bool) (h : list Call) :
  sp self = Some client ->
  create_playlist env self name description public h
  = match env h sp_current_user with
    | user_reply u =>
        (Ok (match env (h ++ [sp_current_user])
                       (sp_user_playlist_create (user_id u) name description
                          public) with
             | playlist_reply p => Some p
             | _ => None
             end),
         h ++ [sp_current_user;
               sp_user_playlist_create (user_id u) name description public])
    | _ => (Ok None, h ++ [sp_current_user])
    end.
Proof. apply create_playlist_run_service. Qed.

End ServiceLife.

Lemma no_catalog_call_before_authentication_witness :
  snd (invoke_all (Demo.world true true) SpotifyService.init
         [op_search_track "Song A" "Some Artist"; op_authenticate "bad";
          op_create_playlist "p" "d" true; op_add_tracks "pl1" ["u"]] [])
  = [get_access_token "bad"].
Proof.
  eapply (@no_catalog_call_before_authentication _ (Demo.world true true)
            [op_search_track "Song A" "Some Artist"; op_authenticate "bad";
             op_create_playlist "p" "d" true; op_add_tracks "pl1" ["u"]]
            _ _ [] _).
  - vm_compute. reflexivity.
  - repeat constructor.
Defined.

Lemma create_playlist_after_profile_witness :
  SpotifyService.create_playlist (Demo.world true true) Demo.service
    "Chart" "About" false []
  = (Ok (Some (Playlist.mk "pl1" "Chart" "https://open.spotify.com/pl1")),
     [sp_current_user; sp_user_playlist_create "u1" "Chart" "About" false]).
Proof.
  apply (@create_playlist_after_profile (Demo.world true true) Demo.service
           {| auth := "tok" |} "Chart" "About" false []).
  reflexivity.
Defined.

(** ** Authentication through the routes *)

Section CallbackTheorems.
Context `{CharTables}.
Variable env : Env.

Lemma callback_run (session : Session) (self : SpotifyService.t)
  (code : option string) (h : list Call) :
  callback env session self code h
  = match code with
    | None | Some "" =>
        (Ok (jsonify_with (message_body "error" "Authentication failed") 400,
             session, self), h)
    | Some c =>
        (Ok (match env h (get_access_token c) with
             | token_reply t =>
                 (jsonify (message_body "success"
                             "Authentication successful"),
                  {| token_info := Some t |},
                  {| SpotifyService.sp :=
                       Some {| auth := access_token t |} |})
             | _ =>
                 (jsonify_with (message_body "error" "Authentication failed")
                    400, session, self)
             end),
         h ++ [get_access_token c])
    end.
Proof.
  unfold callback. destruct code as [[|a c]|]; try reflexivity.
  cbn [truthy_str]. unfold bind. rewrite authenticate_run.
  destruct (env h (get_access_token (String a c))); reflexivity.
Qed.


(** X12. After a [/callback] answered 200, [/api/status] in the session it
    left fetches the profile, and reports it, or
    [authenticated: false, user: null] when the fetch raises. *)
Theorem status_after_callback (session session' : Session)
  (self self' : SpotifyService.t) (code : option string) (resp : Response)
  (h h1 : list Call) :
  callback env session self code h = (Ok (resp, session', self'), h1) ->
  http_status resp = 200 ->
  status env session' self' h1
  = (Ok (jsonify (match env h1 sp_current_user with
                  | user_reply u => status_body true (Some u)
                  | _ => status_body false None
                  end)),
     h1 ++ [sp_current_user]).
Proof.
  rewrite callback_run. intros E Hok.
  destruct code as [[|a c]|];
    try (injection E as <- _ _ _; discriminate).
  destruct (env h (get_access_token (String a c)));
    injection E as <- <- <- <-; try discriminate.
  unfold status. cbn [token_info SpotifyService.sp].
  cbv beta delta [try_except bind SpotifyService.current_user call ret raise].
  destruct (env (h ++ [get_access_token (String a c)]) sp_current_user);
    reflexivity.
Qed.

End CallbackTheorems.

Lemma status_after_callback_witness :
  status (Demo.world true true) Demo.logged_in Demo.service
    [get_access_token "good"]
  = (Ok (jsonify (status_body true (Some Demo.me))),
     [get_access_token "good"; sp_current_user]).
Proof.
  apply (@status_after_callback (Demo.world true true) Demo.anonymous
           Demo.logged_in SpotifyService.init Demo.service (Some "good")
           (jsonify (message_body "success" "Authentication successful"))
           []).
  - reflexivity.
  - reflexivity.
Defined.

(** ** The calls of [/api/create_playlist] *)

Section Counting.






End Counting.

Section RouteCalls.
Context `{CharTables}.
Variable env : Env.






End RouteCalls.

Section RouteCallTheorems.
Context `{CharTables}.
Variable env : Env.



End RouteCallTheorems.


Section SingleAdd.
Context `{CharTables}.
Variable env : Env.




End SingleAdd.


(** ** The search terms *)

Section Quoting.
Context `{CharTables}.

Lemma occurrences_append (c : ascii) (a b : string) :
  occurrences c (a ++ b) = occurrences c a + occurrences c b.
Proof.
  induction a as [|x r IH]; simpl; [reflexivity|]. rewrite IH. lia.
Qed.

Lemma occurrences_clean (c : ascii) (s : string) :
  word_char c = false -> isspace c = false -> occurrences c (clean s) = 0.
Proof.
  intros Hw Hs. unfold clean. induction s as [|x r IH]; simpl;
    [reflexivity|].
  destruct (word_char x || isspace x) eqn:Ex; [|exact IH].
  simpl. rewrite IH. destruct (Ascii.eqb x c) eqn:Exc; [|reflexivity].
  apply Ascii.eqb_eq in Exc. subst x. rewrite Hw, Hs in Ex. discriminate.
Qed.

(** X16. Provided the double quote is neither a word character nor
    whitespace, the cleaned terms contain none, so that the quotes of the
    four queries are those of the templates: four in each of the first two,
    none in the last two, whatever the title and the artist. *)
Theorem search_queries_quotes (title artist : string) :
  word_char (ascii_of_nat 34) = false ->
  isspace (ascii_of_nat 34) = false ->
  map (occurrences (ascii_of_nat 34))
      (SpotifyService.queries (clean title) (clean artist))
  = [4; 4; 0; 0].
Proof.
  intros Hw Hs. unfold SpotifyService.queries, dquote. cbn [map].
  repeat rewrite occurrences_append.
  rewrite !occurrences_clean by assumption. reflexivity.
Qed.

End Quoting.

Lemma search_queries_quotes_witness :
  map (occurrences (ascii_of_nat 34))
      (SpotifyService.queries (clean ("Say " ++ dquote ++ "Hi" ++ dquote))
                              (clean "AC/DC"))
  = [4; 4; 0; 0].
Proof.
  apply (@search_queries_quotes latin1_tables).
  - reflexivity.
  - reflexivity.
Defined.

(** * The client *)

(** ** Signing in *)

Section CliAuthenticate.
Variable env : Cli.Env.
Variable self : Cli.t.

(** The [try] block: one status request, and the line printed when the
    reply signs in. *)
Lemma check_status_run (text : string) (h : list Cli.Call) :
  Cli.check_status env self text h
  = match signed_in (env h (status_request self)) with
    | Some name =>
        (Ok true,
         h ++ [status_request self;
               Cli.print [Cli.lit text; Cli.val name]])
    | None => (Ok false, h ++ [status_request self])
    end.
Proof.
  cbv beta delta [Cli.check_status Cli.try_except Cli.bind Cli.get Cli.call
                  Cli.lift Cli.ret Cli.raise Cli.emit].
  fold (status_request self). unfold signed_in.
  destruct (env h (status_request self)) as [|code [body|]|];
    try reflexivity.
  cbn [fst snd].
  destruct (Cli.dict_get body "authenticated" Cli.JNull) as [a|];
    [|reflexivity].
  destruct (Cli.truthy a); [|reflexivity].
  destruct (Cli.dict_get body "user" (Cli.JObj [])) as [user|];
    [|reflexivity].
  destruct (Cli.dict_get user "display_name" (Cli.JStr "User"));
    [|reflexivity].
  rewrite <- app_assoc. reflexivity.
Qed.

(** The waiting loop, round by round. *)
Lemma wait_step (i : nat) (rest : list nat) (h : list Cli.Call) :
  Cli.wait env self (i :: rest) h
  = match signed_in (env (h ++ [Cli.time_sleep]) (status_request self)) with
    | Some name =>
        (Ok true,
         h ++ [Cli.time_sleep; status_request self;
               Cli.print [Cli.lit "✅ Successfully authenticated as ";
                          Cli.val name]])
    | None => Cli.wait env self rest (h ++ failed_round self i)
    end.
Proof.
  cbn [Cli.wait]. unfold Cli.bind at 1. unfold Cli.emit at 1.
  unfold Cli.bind at 1. rewrite check_status_run.
  destruct (signed_in (env (h ++ [Cli.time_sleep]) (status_request self))).
  - rewrite <- app_assoc. reflexivity.
  - unfold failed_round, Cli.bind.
    destruct (i mod 10 =? 0); unfold Cli.emit, Cli.ret;
      rewrite <- !app_assoc; reflexivity.
Qed.

(** What the loop comes to. *)
Lemma wait_run (indices : list nat) :
  forall h,
    (Cli.wait env self indices h
     = (Ok false, h ++ flat_map (failed_round self) indices)) \/
    (exists done name,
       List.length done < List.length indices /\
       done = firstn (List.length done) indices /\
       signed_in (env (h ++ flat_map (failed_round self) done
                         ++ [Cli.time_sleep]) (status_request self))
       = Some name /\
       Cli.wait env self indices h
       = (Ok true,
          h ++ flat_map (failed_round self) done
            ++ [Cli.time_sleep; status_request self;
                Cli.print [Cli.lit "✅ Successfully authenticated as ";
                           Cli.val name]])).
Proof.
  induction indices as [|i rest IH]; intros h.
  - left. cbn [Cli.wait flat_map]. unfold Cli.ret. now rewrite app_nil_r.
  - rewrite wait_step.
    destruct (signed_in (env (h ++ [Cli.time_sleep]) (status_request self)))
      as [name|] eqn:E.
    + right. exists [], name. cbn [List.length flat_map firstn app].
      repeat split; auto; lia.
    + destruct (IH (h ++ failed_round self i))
        as [Efail | (done & name & Hlen & Hdone & Hsigned & Erun)].
      * left. rewrite Efail. cbn [flat_map]. rewrite <- app_assoc.
        reflexivity.
      * right. exists (i :: done), name. cbn [List.length firstn flat_map].
        split; [lia|]. split; [f_equal; exact Hdone|].
        rewrite <- !app_assoc in *.
        split; [exact Hsigned | exact Erun].
Qed.

End CliAuthenticate.

Section CliAuthenticateTheorems.
Variable env : Cli.Env.
Variable self : Cli.t.

Lemma cli_authenticate_run (h : list Cli.Call) :
  Cli.authenticate env self h
  = let h0 := h ++ [Cli.print
                      [Cli.lit "🎵 Starting Spotify authentication..."]] in
    match signed_in (env h0 (status_request self)) with
    | Some name =>
        (Ok true,
         h0 ++ [status_request self;
                Cli.print [Cli.lit "✅ Already authenticated as ";
                           Cli.val name]])
    | None =>
        match env (h ++ firstn 3 (opening self))
                  (Cli.webbrowser_open (Cli.base_url self ++ "/auth")) with
        | Cli.raises => (Raised, h ++ firstn 4 (opening self))
        | _ =>
            match Cli.wait env self (seq 0 60) (h ++ opening self) with
            | (Ok false, h') =>
                (Ok false,
                 h' ++ [Cli.print
                          [Cli.lit
                             "❌ Authentication timeout. Please try again."]])
            | r => r
            end
        end
    end.
Proof.
  unfold Cli.authenticate. unfold Cli.bind at 1. unfold Cli.emit at 1.
  unfold Cli.bind at 1. rewrite check_status_run. cbv zeta.
  destruct (signed_in _) as [name|]; [reflexivity|].
  unfold opening. cbn [firstn].
  cbv beta iota zeta delta [Cli.bind Cli.emit Cli.call Cli.ret].
  rewrite <- ?app_assoc. cbn [app].
  destruct (env _ (Cli.webbrowser_open _)); try reflexivity.
  all: rewrite <- ?app_assoc; cbn [app];
    match goal with |- context [Cli.wait env self ?l ?h0] =>
      destruct (Cli.wait env self l h0) as [[[|]|] h'] end;
    reflexivity.
Qed.

Lemma failed_rounds_count (rounds : list nat) :
  List.length (filter is_get (flat_map (failed_round self) rounds))
  = List.length rounds /\
  List.length (filter is_wait (flat_map (failed_round self) rounds))
  = List.length rounds /\
  filter is_browser (flat_map (failed_round self) rounds) = [] /\
  filter is_post (flat_map (failed_round self) rounds) = [].
Proof.
  induction rounds as [|i rest (Hget & Hwait & Hopen & Hpost)];
    [repeat split|].
  cbn [flat_map]. rewrite !filter_app, !length_app, Hget, Hwait, Hopen, Hpost.
  unfold failed_round. destruct (i mod 10 =? 0); repeat split.
Qed.

(** X17. If the first status check signs in, [authenticate] returns [True]
    after that one request: the browser is not opened and nothing is
    waited for. *)
Theorem authenticate_already_signed_in (h : list Cli.Call)
  (name : Cli.json) :
  signed_in (env (h ++ [Cli.print
                          [Cli.lit "🎵 Starting Spotify authentication..."]])
                 (status_request self)) = Some name ->
  Cli.authenticate env self h
  = (Ok true,
     h ++ [Cli.print [Cli.lit "🎵 Starting Spotify authentication..."];
           status_request self;
           Cli.print [Cli.lit "✅ Already authenticated as ";
                      Cli.val name]]).
Proof.
  intros E. rewrite cli_authenticate_run. cbv zeta. rewrite E.
  rewrite <- app_assoc. reflexivity.
Qed.

(** X18. If no status check signs in and the browser opens,
    [authenticate] returns [False] after opening the browser once and going
    through all 60 rounds, each a sleep of one second and a status request,
    with a progress line after rounds 0, 10, ..., 50: 61 status requests
    and 60 seconds of sleep in all. *)
Theorem authenticate_times_out (h : list Cli.Call) :
  (forall h', signed_in (env h' (status_request self)) = None) ->
  (forall h', env h' (Cli.webbrowser_open (Cli.base_url self ++ "/auth"))
              <> Cli.raises) ->
  let calls :=
    opening self ++ flat_map (failed_round self) (seq 0 60)
    ++ [Cli.print [Cli.lit "❌ Authentication timeout. Please try again."]]
  in
  Cli.authenticate env self h = (Ok false, h ++ calls) /\
  List.length (filter is_get calls) = 61 /\
  List.length (filter is_wait calls) = 60 /\
  List.length (filter is_browser calls) = 1.
Proof.
  intros Hnone Hopen calls. split.
  - rewrite cli_authenticate_run. cbv zeta. rewrite Hnone.
    specialize (Hopen (h ++ firstn 3 (opening self))).
    destruct (wait_run env self (seq 0 60) (h ++ opening self))
      as [Efail | (done & name & _ & _ & Hsigned & _)].
    + rewrite Efail. subst calls. rewrite <- !app_assoc.
      destruct (env _ (Cli.webbrowser_open _)); congruence.
    + rewrite Hnone in Hsigned. discriminate.
  - subst calls. rewrite !filter_app, !length_app.
    destruct (failed_rounds_count (seq 0 60)) as (-> & -> & -> & _).
    repeat split.
Qed.

(** X19. [authenticate] returns [True] only on a status reply that signs
    in: the history then ends with that request and the line naming the
    user. *)
Theorem authenticate_true_is_signed_in (h : list Cli.Call) :
  fst (Cli.authenticate env self h) = Ok true ->
  exists h1 text name,
    snd (Cli.authenticate env self h)
    = h1 ++ [status_request self;
             Cli.print [Cli.lit text; Cli.val name]] /\
    signed_in (env h1 (status_request self)) = Some name.
Proof.
  rewrite cli_authenticate_run. cbv zeta.
  destruct (signed_in (env (h ++ [_]) _)) as [name|] eqn:E.
  - intros _. do 3 eexists. split; [reflexivity | exact E].
  - destruct (env _ (Cli.webbrowser_open _)); try discriminate.
    all: destruct (wait_run env self (seq 0 60) (h ++ opening self))
      as [Efail | (done & name & _ & _ & Hsigned & Erun)];
      [rewrite Efail; discriminate|];
      rewrite Erun; intros _;
      exists ((h ++ opening self) ++ flat_map (failed_round self) done
              ++ [Cli.time_sleep]), "✅ Successfully authenticated as ", name;
      (split; [cbn [snd]; rewrite <- !app_assoc; reflexivity|]);
      exact Hsigned.
Qed.

(** X20. Whatever the replies, [authenticate] makes at most 61 status
    requests and no other request, sleeps at most 60 times and opens the
    browser at most once; it raises only if opening the browser does. *)
Theorem authenticate_budget (h : list Cli.Call) :
  exists calls,
    snd (Cli.authenticate env self h) = h ++ calls /\
    List.length (filter is_get calls) <= 61 /\
    filter is_post calls = [] /\
    List.length (filter is_wait calls) <= 60 /\
    List.length (filter is_browser calls) <= 1 /\
    (fst (Cli.authenticate env self h) = Raised ->
     env (h ++ firstn 3 (opening self))
         (Cli.webbrowser_open (Cli.base_url self ++ "/auth")) = Cli.raises).
Proof.
  rewrite cli_authenticate_run. cbv zeta.
  destruct (signed_in (env (h ++ [_]) _)) as [name|].
  { eexists. rewrite <- app_assoc. split; [reflexivity|].
    cbn. repeat split; try lia. discriminate. }
  destruct (env _ (Cli.webbrowser_open _)) eqn:Eopen.
  { eexists. split; [reflexivity|]. cbn. repeat split; lia. }
  all: destruct (wait_run env self (seq 0 60) (h ++ opening self))
    as [Efail | (done & name & Hlen & _ & _ & Erun)].
  all: try (rewrite Efail; eexists; rewrite <- !app_assoc;
            (split; [reflexivity|]);
            rewrite !filter_app, !length_app;
            destruct (failed_rounds_count (seq 0 60)) as (-> & -> & -> & ->);
            cbn; repeat split; try lia; discriminate).
  all: rewrite Erun; eexists; rewrite <- !app_assoc;
    (split; [reflexivity|]);
    rewrite !filter_app, !length_app;
    destruct (failed_rounds_count done) as (-> & -> & -> & ->);
    rewrite length_seq in Hlen;
    cbn; repeat split; try lia; discriminate.
Qed.

End CliAuthenticateTheorems.

(** A client whose cookie carries the credential, against a service that
    holds a client: signed in at once. *)
Lemma authenticate_already_signed_in_witness :
  Cli.authenticate (CliDemo.served true Demo.logged_in Demo.service)
    Cli.default []
  = (Ok true,
     [Cli.print [Cli.lit "🎵 Starting Spotify authentication..."];
      status_request Cli.default;
      Cli.print [Cli.lit "✅ Already authenticated as ";
                 Cli.val (Cli.JStr "Me")]]).
Proof.
  apply (@authenticate_already_signed_in
           (CliDemo.served true Demo.logged_in Demo.service) Cli.default []).
  reflexivity.
Defined.

(** A client whose cookie carries nothing: a minute of waiting. *)
Lemma authenticate_times_out_witness :
  fst (Cli.authenticate (CliDemo.served true Demo.anonymous Demo.service)
         Cli.default [])
  = Ok false.
Proof.
  destruct (@authenticate_times_out
              (CliDemo.served true Demo.anonymous Demo.service)
              Cli.default []) as [Erun _].
  - intros h'. reflexivity.
  - intros h'. discriminate.
  - rewrite Erun. reflexivity.
Defined.

Lemma authenticate_true_is_signed_in_witness :
  exists h1 text name,
    snd (Cli.authenticate (CliDemo.served true Demo.logged_in Demo.service)
           Cli.default [])
    = h1 ++ [status_request Cli.default;
             Cli.print [Cli.lit text; Cli.val name]] /\
    signed_in (CliDemo.served true Demo.logged_in Demo.service h1
                 (status_request Cli.default)) = Some name.
Proof.
  apply (@authenticate_true_is_signed_in
           (CliDemo.served true Demo.logged_in Demo.service) Cli.default []).
  vm_compute. reflexivity.
Defined.

(** ** The client and the service *)

Section CliAndService.
Variable senv : Env.

Lemma status_sent (session : Session) (self : SpotifyService.t)
  (h : list Call) :
  sent_result (status senv session self h)
  = Cli.response 200
      (Some (to_json
               (match token_info session, SpotifyService.sp self with
                | None, _ => status_body false None
                | Some _, None => status_body true None
                | Some _, Some _ =>
                    match senv h sp_current_user with
                    | user_reply u => status_body true (Some u)
                    | _ => status_body false None
                    end
                end))).
Proof.
  unfold status.
  destruct (token_info session), (SpotifyService.sp self); try reflexivity.
  cbv beta delta [try_except bind SpotifyService.current_user call ret raise].
  destruct (senv h sp_current_user); reflexivity.
Qed.

(** X21. The answer of [/api/status] signs the client in exactly when the
    session has a credential, the service object a client, and the profile
    was fetched; the name is then the profile's display name.  In
    particular the answer [authenticated: true, user: null], given on a
    credential without client, does not sign in. *)
Theorem status_answer_signs_in (session : Session)
  (self : SpotifyService.t) (h : list Call) (name : Cli.json) :
  signed_in (sent_result (status senv session self h)) = Some name <->
  token_info session <> None /\
  SpotifyService.sp self <> None /\
  exists u, senv h sp_current_user = user_reply u /\
            name = Cli.JStr (display_name u).
Proof.
  rewrite status_sent.
  destruct (token_info session) as [credential|],
           (SpotifyService.sp self) as [client|]; cbn.
  2-4: split; [discriminate | intros (H1 & H2 & _); congruence].
  destruct (senv h sp_current_user) as [| | | |u| |] eqn:E; cbn.
  5: { split.
       - intros Hn. injection Hn as <-.
         repeat split; try discriminate. exists u. auto.
       - intros (_ & _ & u' & Eu & ->). congruence. }
  all: split; [discriminate | intros (_ & _ & u' & Eu & _); discriminate].
Qed.

End CliAndService.

Section CliAgainstService.
Variable env : Cli.Env.
Variable self : Cli.t.

(** X22. If each status request of the client is served by [/api/status]
    on a session without credential, or on a service object without client,
    then [authenticate] returns [False], after opening the browser and
    polling for 60 rounds, whatever happens in the browser. *)
Theorem authenticate_needs_own_session (h : list Cli.Call) :
  (forall h', exists senv session service sh,
      (token_info session = None \/ SpotifyService.sp service = None) /\
      env h' (status_request self)
      = sent_result (status senv session service sh)) ->
  (forall h', env h' (Cli.webbrowser_open (Cli.base_url self ++ "/auth"))
              <> Cli.raises) ->
  Cli.authenticate env self h
  = (Ok false,
     h ++ opening self ++ flat_map (failed_round self) (seq 0 60)
       ++ [Cli.print
             [Cli.lit "❌ Authentication timeout. Please try again."]]).
Proof.
  intros Hserved Hopen.
  assert (Hnone : forall h', signed_in (env h' (status_request self)) = None).
  { intros h'.
    destruct (Hserved h') as (senv & session & service & sh & Hno & ->).
    rewrite status_sent.
    destruct Hno as [-> | ->]; [reflexivity|].
    destruct (token_info session); reflexivity. }
  rewrite cli_authenticate_run. cbv zeta. rewrite Hnone.
  specialize (Hopen (h ++ firstn 3 (opening self))).
  destruct (wait_run env self (seq 0 60) (h ++ opening self))
    as [Efail | (done & name & _ & _ & Hsigned & _)].
  - rewrite Efail. rewrite <- !app_assoc.
    destruct (env _ (Cli.webbrowser_open _)); congruence.
  - rewrite Hnone in Hsigned. discriminate.
Qed.

End CliAgainstService.

(** The credential is in the session, but the service object has no
    client: the service says [authenticated: true], the client waits in
    vain. *)
Lemma authenticate_needs_own_session_witness :
  fst (Cli.authenticate
         (CliDemo.served true Demo.logged_in SpotifyService.init)
         Cli.default [])
  = Ok false.
Proof.
  rewrite (@authenticate_needs_own_session
             (CliDemo.served true Demo.logged_in SpotifyService.init)
             Cli.default []).
  - reflexivity.
  - intros h'. exists (Demo.world true true), Demo.logged_in,
      SpotifyService.init, []. split; [right|]; reflexivity.
  - intros h'. discriminate.
Defined.

(** ** Creating a playlist from the client *)

Section CliPrints.
Variable env : Cli.Env.

Lemma prints_ret {A} (a : A) : prints_only (Cli.ret a).
Proof. intros h. exists []. rewrite app_nil_r. auto. Qed.

Lemma prints_raise {A} : prints_only (@Cli.raise A).
Proof. intros h. exists []. rewrite app_nil_r. auto. Qed.

Lemma prints_lift {A} (o : option A) : prints_only (Cli.lift o).
Proof. destruct o; [apply prints_ret | apply prints_raise]. Qed.

Lemma prints_emit (line : list Cli.Piece) :
  prints_only (Cli.emit (Cli.print line)).
Proof. intros h. exists [Cli.print line]. split; [reflexivity|]. repeat constructor. Qed.

Lemma prints_bind {A B} (m : Cli.M A) (k : A -> Cli.M B) :
  prints_only m -> (forall a, prints_only (k a)) ->
  prints_only (Cli.bind m k).
Proof.
  intros Hm Hk h. unfold Cli.bind.
  destruct (Hm h) as (l1 & E1 & F1).
  destruct (m h) as [[a|] h1]; simpl in E1; subst h1.
  - destruct (Hk a (h ++ l1)) as (l2 & E2 & F2).
    exists (l1 ++ l2). rewrite E2, app_assoc. split; auto.
    apply Forall_app; auto.
  - exists l1. auto.
Qed.

Lemma prints_try {A} (m handler : Cli.M A) :
  prints_only m -> prints_only handler ->
  prints_only (Cli.try_except m handler).
Proof.
  intros Hm Hh h. unfold Cli.try_except.
  destruct (Hm h) as (l1 & E1 & F1).
  destruct (m h) as [[a|] h1]; simpl in E1; subst h1.
  - exists l1. auto.
  - destruct (Hh (h ++ l1)) as (l2 & E2 & F2).
    exists (l1 ++ l2). rewrite E2, app_assoc. split; auto.
    apply Forall_app; auto.
Qed.

Lemma prints_for_each {A} (l : list A) (body : A -> Cli.M unit) :
  (forall x, prints_only (body x)) -> prints_only (Cli.for_each l body).
Proof.
  intros Hbody. induction l as [|x r IH]; simpl.
  - apply prints_ret.
  - apply prints_bind; auto.
Qed.

Lemma prints_print_missing (missing_tracks : Cli.json) :
  prints_only (Cli.print_missing missing_tracks).
Proof.
  unfold Cli.print_missing, Cli.print_track.
  destruct (Cli.truthy missing_tracks); [|apply prints_ret].
  repeat first
    [ apply prints_bind; [|intros ?]
    | apply prints_lift | apply prints_emit | apply prints_ret
    | apply prints_for_each; intros ?
    | match goal with |- prints_only (if ?b then _ else _) =>
        destruct b end ].
Qed.

(** After the request: reading the answer only prints. *)
Lemma prints_reading (response : nat * option Cli.json) :
  prints_only
    (result <~ Cli.lift (snd response) ;;
     if fst response =? 200
     then
       stats <~ Cli.lift (Cli.getitem result "stats") ;;
       playlist <~ Cli.lift (Cli.getitem result "playlist") ;;
       name <~ Cli.lift (Cli.getitem playlist "name") ;;
       Cli.emit (Cli.print [Cli.lit "✅ Successfully created playlist: ";
                            Cli.val name]) ;;>
       url' <~ Cli.lift (Cli.getitem playlist "url") ;;
       Cli.emit (Cli.print [Cli.lit "🔗 Playlist URL: "; Cli.val url']) ;;>
       found <~ Cli.lift (Cli.getitem stats "found") ;;
       total <~ Cli.lift (Cli.getitem stats "total_songs") ;;
       Cli.emit (Cli.print [Cli.lit "📊 Stats: "; Cli.val found; Cli.lit "/";
                            Cli.val total; Cli.lit " tracks found"]) ;;>
       missing_tracks <~ Cli.lift (Cli.getitem result "missing_tracks") ;;
       Cli.print_missing missing_tracks ;;>
       Cli.ret true
     else
       error <~ Cli.lift (Cli.dict_get result "error"
                            (Cli.JStr "Unknown error")) ;;
       Cli.emit (Cli.print [Cli.lit "❌ Error: "; Cli.val error]) ;;>
       Cli.ret false).
Proof.
  apply prints_bind; [apply prints_lift|]. intros result.
  destruct (fst response =? 200).
  - repeat first
      [ apply prints_bind; [|intros ?]
      | apply prints_lift | apply prints_emit | apply prints_ret
      | apply prints_print_missing ].
  - repeat first
      [ apply prints_bind; [|intros ?]
      | apply prints_lift | apply prints_emit | apply prints_ret ].
Qed.

End CliPrints.

Section CliCreate.
Variable env : Cli.Env.
Variable self : Cli.t.

Lemma try_prints (m : Cli.M bool) (line : list Cli.Piece)
  (h : list Cli.Call) :
  prints_only m ->
  exists ok lines,
    Cli.try_except m (Cli.emit (Cli.print line) ;;> Cli.ret false) h
    = (Ok ok, h ++ lines) /\
    Forall is_print lines /\
    (ok = true -> fst (m h) = Ok true).
Proof.
  intros Hm. destruct (Hm h) as (lines & E & Hlines).
  unfold Cli.try_except.
  destruct (m h) as [[ok|] h1]; simpl in E; subst h1.
  - exists ok, lines. repeat split; auto. intros ->. reflexivity.
  - exists false, (lines ++ [Cli.print line]).
    unfold Cli.bind, Cli.emit, Cli.ret. rewrite <- app_assoc.
    repeat split; [|discriminate].
    apply Forall_app. split; [exact Hlines | repeat constructor].
Qed.

(** X23. The client's [create_playlist] never raises.  It prints a line,
    posts one request whose body carries the date, the playlist name and
    the [public] flag, and after that only prints; it returns [True] only if
    the answer had status 200 and a JSON body. *)
Theorem cli_create_playlist_posts_once (date playlist_name : option string)
  (public : bool) (h : list Cli.Call) :
  exists ok lines,
    Cli.create_playlist env self date playlist_name public h
    = (Ok ok,
       h ++ creating_line date
         :: create_request self date playlist_name public :: lines) /\
    Forall is_print lines /\
    (ok = true ->
     exists body,
       env (h ++ [creating_line date])
           (create_request self date playlist_name public)
       = Cli.response 200 (Some body)).
Proof.
  unfold Cli.create_playlist. unfold Cli.bind at 1. unfold Cli.emit at 1.
  fold (creating_line date). cbv zeta.
  set (h1 := h ++ [creating_line date]).
  unfold create_request.
  set (request := Cli.session_post _ _).
  destruct (env h1 request) as [|code body|] eqn:Ereply.
  1, 3: exists false;
    exists (Cli.print [Cli.lit "❌ Error creating playlist: "; Cli.exc]
            :: nil);
    (split; [|split; [once (repeat (constructor; try exact I))
                     | intros Habs; discriminate Habs]]).
  1, 2: cbv beta iota zeta delta [Cli.try_except Cli.bind Cli.post Cli.call
                              Cli.emit Cli.ret Cli.raise];
    fold request; rewrite Ereply; subst h1;
    rewrite <- !app_assoc; reflexivity.
  destruct (@try_prints _
              [Cli.lit "❌ Error creating playlist: "; Cli.exc]
              (h1 ++ [request]) (prints_reading (code, body)))
    as (ok & lines & Erun & Hlines & Hok).
  exists ok, lines. split; [|split; [exact Hlines|]].
  - subst h1. rewrite <- !app_assoc in Erun. cbn [app] in Erun.
    rewrite <- Erun.
    cbv beta iota zeta delta [Cli.try_except Cli.bind Cli.post Cli.call
                              Cli.ret Cli.raise].
    fold request. rewrite <- !app_assoc. cbn [app]. rewrite Ereply.
    reflexivity.
  - intros Htrue. specialize (Hok Htrue).
    destruct body as [result|]; [|discriminate].
    cbn [fst snd] in Hok.
    destruct (code =? 200) eqn:Ecode.
    + apply Nat.eqb_eq in Ecode. subst code. eauto.
    + exfalso. revert Hok.
      cbv beta iota zeta delta [Cli.bind Cli.lift Cli.ret Cli.raise
                                Cli.emit fst snd].
      destruct (Cli.dict_get result "error" (Cli.JStr "Unknown error"));
        discriminate.
Qed.

End CliCreate.

(** ** The client against the answers of the service *)

Section CliReadsAnswer.
Variable env : Cli.Env.
Variable self : Cli.t.

Lemma print_track_line (s : Song.t) (h : list Cli.Call) :
  Cli.print_track (Cli.JObj (json_of_song s)) h = (Ok tt, h ++ [track_line s]).
Proof. reflexivity. Qed.

Lemma for_each_track_lines (l : list Song.t) (h : list Cli.Call) :
  Cli.for_each (map (fun s => Cli.JObj (json_of_song s)) l) Cli.print_track h
  = (Ok tt, h ++ map track_line l).
Proof.
  revert h. induction l as [|s r IH]; intros h.
  - simpl. unfold Cli.ret. rewrite app_nil_r. reflexivity.
  - cbn [map Cli.for_each]. unfold Cli.bind at 1.
    rewrite print_track_line, IH, <- app_assoc. reflexivity.
Qed.

Lemma print_missing_lines (m : list Song.t) (h : list Cli.Call) :
  Cli.print_missing (Cli.JList (map (fun s => Cli.JObj (json_of_song s)) m)) h
  = (Ok tt, h ++ missing_lines m).
Proof.
  destruct m as [|s r].
  - simpl. unfold Cli.ret. rewrite app_nil_r. reflexivity.
  - set (m := s :: r).
    unfold Cli.print_missing, missing_lines.
    replace (Cli.truthy (Cli.JList (map _ m))) with true by reflexivity.
    cbv beta iota delta [Cli.len Cli.iter_first10 Cli.lift].
    rewrite length_map, firstn_map.
    cbv beta iota delta [Cli.bind Cli.ret Cli.emit].
    rewrite for_each_track_lines.
    subst m. cbv beta iota.
    destruct (10 <? List.length (s :: r));
      rewrite <- ?app_assoc; cbn [app]; rewrite ?app_nil_r; reflexivity.
Qed.

End CliReadsAnswer.

Section CliCreateAnswers.
Variable env : Cli.Env.
Variable self : Cli.t.

(** The run of the client's [create_playlist], given the reply to its
    request. *)
Lemma cli_create_playlist_run (date playlist_name : option string)
  (public : bool) (h : list Cli.Call) (code : nat) (result : Cli.json) :
  env (h ++ [creating_line date])
      (create_request self date playlist_name public)
  = Cli.response code (Some result) ->
  Cli.create_playlist env self date playlist_name public h
  = Cli.try_except
      (if code =? 200
       then
         stats <~ Cli.lift (Cli.getitem result "stats") ;;
         playlist <~ Cli.lift (Cli.getitem result "playlist") ;;
         name <~ Cli.lift (Cli.getitem playlist "name") ;;
         Cli.emit (Cli.print [Cli.lit "✅ Successfully created playlist: ";
                              Cli.val name]) ;;>
         url' <~ Cli.lift (Cli.getitem playlist "url") ;;
         Cli.emit (Cli.print [Cli.lit "🔗 Playlist URL: "; Cli.val url']) ;;>
         found <~ Cli.lift (Cli.getitem stats "found") ;;
         total <~ Cli.lift (Cli.getitem stats "total_songs") ;;
         Cli.emit (Cli.print [Cli.lit "📊 Stats: "; Cli.val found;
                              Cli.lit "/"; Cli.val total;
                              Cli.lit " tracks found"]) ;;>
         missing_tracks <~ Cli.lift (Cli.getitem result "missing_tracks") ;;
         Cli.print_missing missing_tracks ;;>
         Cli.ret true
       else
         error <~ Cli.lift (Cli.dict_get result "error"
                              (Cli.JStr "Unknown error")) ;;
         Cli.emit (Cli.print [Cli.lit "❌ Error: "; Cli.val error]) ;;>
         Cli.ret false)
      (Cli.emit (Cli.print [Cli.lit "❌ Error creating playlist: "; Cli.exc])
       ;;> Cli.ret false)
      (h ++ [creating_line date;
             create_request self date playlist_name public]).
Proof.
  intros Hreply.
  unfold Cli.create_playlist. unfold Cli.bind at 1. unfold Cli.emit at 1.
  fold (creating_line date). cbv zeta.
  unfold create_request in *.
  set (request := Cli.session_post _ _) in *.
  replace (h ++ [creating_line date; request])
    with ((h ++ [creating_line date]) ++ [request])
    by (rewrite <- app_assoc; reflexivity).
  set (h1 := h ++ [creating_line date]) in *.
  unfold Cli.try_except at 1 2. unfold Cli.bind at 1.
  unfold Cli.post. unfold Cli.bind at 1. unfold Cli.call.
  fold request. rewrite Hreply. reflexivity.
Qed.

(** X24. When the service answers the client's request with a playlist
    (status 200), the client returns [True] after printing the playlist's
    name and address, the counts, and the missing tracks: a heading with
    their number, the first ten, and how many more there are.  It does so
    whatever the [status] field says: [partial_success], where no track
    was added, is reported like [success]. *)
Theorem cli_create_playlist_reports (date playlist_name : option string)
  (public : bool) (h : list Cli.Call)
  (status : string) (p : Playlist.t) (stats : Stats)
  (found_tracks : list FoundTrack) (missing_tracks : list Song.t) :
  env (h ++ [creating_line date])
      (create_request self date playlist_name public)
  = sent (jsonify (playlist_body status p stats found_tracks
                     missing_tracks)) ->
  Cli.create_playlist env self date playlist_name public h
  = (Ok true,
     h ++ [ creating_line date;
            create_request self date playlist_name public;
            Cli.print [Cli.lit "✅ Successfully created playlist: ";
                       Cli.val (Cli.JStr (Playlist.name p))];
            Cli.print [Cli.lit "🔗 Playlist URL: ";
                       Cli.val (Cli.JStr (Playlist.external_url p))];
            Cli.print [Cli.lit "📊 Stats: ";
                       Cli.val (Cli.JNum (Z.of_nat (found stats)));
                       Cli.lit "/";
                       Cli.val (Cli.JNum (Z.of_nat (total_songs stats)));
                       Cli.lit " tracks found"] ]
       ++ missing_lines missing_tracks).
Proof.
  intros Hreply.
  unfold sent in Hreply.
  erewrite cli_create_playlist_run by exact Hreply.
  cbn [http_status jsonify Nat.eqb].
  set (request := create_request self date playlist_name public).
  replace (Cli.getitem (to_json (body (jsonify (playlist_body status p stats
                          found_tracks missing_tracks)))) "stats")
    with (Some (Cli.JObj
            [ ("total_songs", Cli.JNum (Z.of_nat (total_songs stats)));
              ("found", Cli.JNum (Z.of_nat (found stats)));
              ("missing", Cli.JNum (Z.of_nat (missing stats))) ]))
    by reflexivity.
  replace (Cli.getitem (to_json (body (jsonify (playlist_body status p stats
                          found_tracks missing_tracks)))) "playlist")
    with (Some (Cli.JObj [ ("id", Cli.JStr (Playlist.id p));
                           ("name", Cli.JStr (Playlist.name p));
                           ("url", Cli.JStr (Playlist.external_url p)) ]))
    by reflexivity.
  replace (Cli.getitem (to_json (body (jsonify (playlist_body status p stats
                          found_tracks missing_tracks)))) "missing_tracks")
    with (Some (Cli.JList (map (fun s => Cli.JObj (json_of_song s))
                             missing_tracks)))
    by reflexivity.
  unfold Cli.try_except.
  cbv beta iota delta [Cli.bind Cli.lift Cli.ret Cli.emit].
  replace (Cli.getitem (Cli.JObj [ ("id", Cli.JStr (Playlist.id p));
                           ("name", Cli.JStr (Playlist.name p));
                           ("url", Cli.JStr (Playlist.external_url p)) ])
             "name")
    with (Some (Cli.JStr (Playlist.name p))) by reflexivity.
  replace (Cli.getitem (Cli.JObj [ ("id", Cli.JStr (Playlist.id p));
                           ("name", Cli.JStr (Playlist.name p));
                           ("url", Cli.JStr (Playlist.external_url p)) ])
             "url")
    with (Some (Cli.JStr (Playlist.external_url p))) by reflexivity.
  replace (Cli.getitem (Cli.JObj
            [ ("total_songs", Cli.JNum (Z.of_nat (total_songs stats)));
              ("found", Cli.JNum (Z.of_nat (found stats)));
              ("missing", Cli.JNum (Z.of_nat (missing stats))) ]) "found")
    with (Some (Cli.JNum (Z.of_nat (found stats)))) by reflexivity.
  replace (Cli.getitem (Cli.JObj
            [ ("total_songs", Cli.JNum (Z.of_nat (total_songs stats)));
              ("found", Cli.JNum (Z.of_nat (found stats)));
              ("missing", Cli.JNum (Z.of_nat (missing stats))) ])
             "total_songs")
    with (Some (Cli.JNum (Z.of_nat (total_songs stats)))) by reflexivity.
  cbv beta iota.
  rewrite print_missing_lines.
  rewrite <- !app_assoc. reflexivity.
Qed.

(** X25. When the service answers with an error (a status other than 200
    and a body with an [error] field), the client prints that error and
    returns [False]. *)
Theorem cli_create_playlist_reports_error (date playlist_name : option string)
  (public : bool) (h : list Cli.Call) (error : string) (code : nat) :
  code <> 200 ->
  env (h ++ [creating_line date])
      (create_request self date playlist_name public)
  = sent (jsonify_with (error_body error) code) ->
  Cli.create_playlist env self date playlist_name public h
  = (Ok false,
     h ++ [ creating_line date;
            create_request self date playlist_name public;
            Cli.print [Cli.lit "❌ Error: "; Cli.val (Cli.JStr error)] ]).
Proof.
  intros Hcode Hreply.
  unfold sent in Hreply.
  erewrite cli_create_playlist_run by exact Hreply.
  cbn [http_status jsonify_with].
  apply Nat.eqb_neq in Hcode. rewrite Hcode.
  set (request := create_request self date playlist_name public).
  replace (Cli.dict_get (to_json (body (jsonify_with (error_body error) code)))
             "error" (Cli.JStr "Unknown error"))
    with (Some (Cli.JStr error)) by reflexivity.
  unfold Cli.try_except.
  cbv beta iota delta [Cli.bind Cli.lift Cli.ret Cli.emit].
  rewrite <- !app_assoc. reflexivity.
Qed.

End CliCreateAnswers.

(** The catalog finds nothing: the playlist is made, empty, and the client
    reports it as created, with both songs missing. *)
Lemma cli_create_playlist_reports_witness :
  Cli.create_playlist (CliDemo.served false Demo.logged_in Demo.service)
    Cli.default None None true []
  = (Ok true,
     [ creating_line None;
       create_request Cli.default None None true;
       Cli.print [Cli.lit "✅ Successfully created playlist: ";
                  Cli.val (Cli.JStr "Billboard Hot 100 - 2024-01-06")];
       Cli.print [Cli.lit "🔗 Playlist URL: ";
                  Cli.val (Cli.JStr "https://open.spotify.com/pl1")];
       Cli.print [Cli.lit "📊 Stats: "; Cli.val (Cli.JNum 0); Cli.lit "/";
                  Cli.val (Cli.JNum 2); Cli.lit " tracks found"] ]
       ++ missing_lines [ Song.mk 1 "Song A" "Some Artist";
                          Song.mk 3 "Song B" "Some Artist" ]).
Proof.
  apply (@cli_create_playlist_reports
           (CliDemo.served false Demo.logged_in Demo.service) Cli.default
           None None true [] "partial_success"
           (Playlist.mk "pl1" "Billboard Hot 100 - 2024-01-06"
              "https://open.spotify.com/pl1")
           {| total_songs := 2; found := 0; missing := 2 |} []
           [ Song.mk 1 "Song A" "Some Artist";
             Song.mk 3 "Song B" "Some Artist" ]).
  vm_compute. reflexivity.
Defined.

(** The session carries no credential: the service answers 401, the client
    prints its message. *)
Lemma cli_create_playlist_reports_error_witness :
  Cli.create_playlist (CliDemo.served true Demo.anonymous Demo.service)
    Cli.default None None true []
  = (Ok false,
     [ creating_line None;
       create_request Cli.default None None true;
       Cli.print [Cli.lit "❌ Error: ";
                  Cli.val (Cli.JStr "Not authenticated with Spotify")] ]).
Proof.
  apply (@cli_create_playlist_reports_error
           (CliDemo.served true Demo.anonymous Demo.service) Cli.default
           None None true [] "Not authenticated with Spotify" 401).
  - discriminate.
  - vm_compute. reflexivity.
Defined.

(** ** The commands *)

Section CliCommands.
Variable env : Cli.Env.
Variable interactive_mode : Cli.t -> Cli.M unit.

Lemma print_song_line (s : Song.t) (h : list Cli.Call) :
  Cli.print_song (Cli.JObj (json_of_song s)) h = (Ok tt, h ++ [song_line s]).
Proof. reflexivity. Qed.

Lemma for_each_song_lines (l : list Song.t) (h : list Cli.Call) :
  Cli.for_each (map (fun s => Cli.JObj (json_of_song s)) l) Cli.print_song h
  = (Ok tt, h ++ map song_line l).
Proof.
  revert h. induction l as [|s r IH]; intros h.
  - simpl. unfold Cli.ret. rewrite app_nil_r. reflexivity.
  - cbn [map Cli.for_each]. unfold Cli.bind at 1.
    rewrite print_song_line, IH, <- app_assoc. reflexivity.
Qed.

(** The [chart] command, given the reply to its request. *)
Lemma main_chart_run (program : string) (rest : list string)
  (h : list Cli.Call) (code : nat) (chart : Cli.json) :
  env h (charts_request Cli.default (first_argument rest))
  = Cli.response code (Some chart) ->
  Cli.main env interactive_mode (program :: "chart" :: rest) h
  = (if Cli.truthy chart
     then
       songs <~ Cli.lift (Cli.getitem chart "songs") ;;
       items <~ Cli.lift (Cli.iter songs) ;;
       Cli.for_each items Cli.print_song
     else Cli.ret tt)
      (h ++ [charts_request Cli.default (first_argument rest)]).
Proof.
  intros Hreply. unfold Cli.main. fold (first_argument rest).
  replace ("chart" =? "auth")%string with false by reflexivity.
  replace ("chart" =? "create")%string with false by reflexivity.
  replace ("chart" =? "chart")%string with true by reflexivity.
  cbv beta iota zeta.
  unfold Cli.bind at 1. unfold Cli.get_chart, Cli.try_except.
  unfold Cli.bind at 1. unfold Cli.get. unfold Cli.bind at 1.
  unfold Cli.call. unfold charts_request in Hreply. rewrite Hreply.
  reflexivity.
Qed.

(** X26. The [chart] command: when the service answers with a chart, the
    client prints one line per entry, in the order of the answer, with the
    position the entry carries, and nothing else. *)
Theorem main_chart_lists_songs (program : string) (rest : list string)
  (h : list Cli.Call) (date : string) (total code : nat)
  (songs : list Song.t) :
  env h (charts_request Cli.default (first_argument rest))
  = charts_sent {| charts_json := charts_body date total songs;
                   charts_status := code |} ->
  Cli.main env interactive_mode (program :: "chart" :: rest) h
  = (Ok tt,
     h ++ charts_request Cli.default (first_argument rest)
       :: map song_line songs).
Proof.
  intros Hreply. unfold charts_sent in Hreply.
  erewrite main_chart_run by exact Hreply.
  cbn [charts_json charts_to_json].
  replace (Cli.truthy (Cli.JObj _)) with true by reflexivity.
  replace (Cli.getitem (Cli.JObj _) "songs")
    with (Some (Cli.JList (map (fun s => Cli.JObj (json_of_song s)) songs)))
    by reflexivity.
  cbv beta iota delta [Cli.bind Cli.lift Cli.ret Cli.iter].
  rewrite for_each_song_lines, <- app_assoc. reflexivity.
Qed.

(** X27. The [chart] command: when the service answers with an error body
    (as it does on a date that does not parse, or when the chart cannot be
    fetched), the command raises, on the missing key [songs], without
    having printed anything. *)
Theorem main_chart_error_raises (program : string) (rest : list string)
  (h : list Cli.Call) (error : string) (code : nat) :
  env h (charts_request Cli.default (first_argument rest))
  = charts_sent {| charts_json := charts_error error;
                   charts_status := code |} ->
  Cli.main env interactive_mode (program :: "chart" :: rest) h
  = (Raised, h ++ [charts_request Cli.default (first_argument rest)]).
Proof.
  intros Hreply. unfold charts_sent in Hreply.
  erewrite main_chart_run by exact Hreply.
  reflexivity.
Qed.

(** X28. The [create] command sends no request to create a playlist unless
    a status reply has signed the user in. *)
Theorem main_create_needs_sign_in (program : string) (rest : list string)
  (h : list Cli.Call) :
  (forall h', signed_in (env h' (status_request Cli.default)) = None) ->
  exists calls,
    snd (Cli.main env interactive_mode (program :: "create" :: rest) h)
    = h ++ calls /\
    filter is_post calls = [].
Proof.
  intros Hnone. unfold Cli.main.
  replace ("create" =? "auth")%string with false by reflexivity.
  replace ("create" =? "create")%string with true by reflexivity.
  cbv beta iota zeta. unfold Cli.bind at 1.
  rewrite cli_authenticate_run. cbv zeta. rewrite Hnone.
  destruct (env _ (Cli.webbrowser_open _)).
  { eexists. split; [reflexivity|]. reflexivity. }
  all: destruct (wait_run env Cli.default (seq 0 60)
                   (h ++ opening Cli.default))
    as [Efail | (done & name & _ & _ & Hsigned & _)];
    [|rewrite Hnone in Hsigned; discriminate].
  all: rewrite Efail; eexists; cbn [snd Cli.ret];
    rewrite <- !app_assoc; (split; [reflexivity|]);
    rewrite !filter_app;
    destruct (failed_rounds_count Cli.default (seq 0 60))
      as (_ & _ & _ & ->);
    reflexivity.
Qed.

End CliCommands.

Lemma main_chart_lists_songs_witness :
  Cli.main (CliDemo.served true Demo.anonymous Demo.service)
    (fun _ => Cli.ret tt) ["cli_client.py"; "chart"; "2024-01-06"] []
  = (Ok tt,
     [ charts_request Cli.default (Some "2024-01-06");
       song_line (Song.mk 1 "Song A" "Some Artist");
       song_line (Song.mk 3 "Song B" "Some Artist") ]).
Proof.
  apply (@main_chart_lists_songs
           (CliDemo.served true Demo.anonymous Demo.service)
           (fun _ => Cli.ret tt) "cli_client.py" ["2024-01-06"] []
           "2024-01-06" 2 200
           [ Song.mk 1 "Song A" "Some Artist";
             Song.mk 3 "Song B" "Some Artist" ]).
  vm_compute. reflexivity.
Defined.

(** A date that does not parse: the service answers 400, the command ends
    on an exception. *)
Lemma main_chart_error_raises_witness :
  Cli.main (CliDemo.served true Demo.anonymous Demo.service)
    (fun _ => Cli.ret tt) ["cli_client.py"; "chart"; "last week"] []
  = (Raised, [charts_request Cli.default (Some "last week")]).
Proof.
  apply (@main_chart_error_raises
           (CliDemo.served true Demo.anonymous Demo.service)
           (fun _ => Cli.ret tt) "cli_client.py" ["last week"] []
           "Invalid date format. Use YYYY-MM-DD" 400).
  vm_compute. reflexivity.
Defined.

Lemma main_create_needs_sign_in_witness :
  exists calls,
    snd (Cli.main (CliDemo.served true Demo.anonymous Demo.service)
           (fun _ => Cli.ret tt) ["cli_client.py"; "create"] [])
    = [] ++ calls /\
    filter is_post calls = [].
Proof.
  apply (@main_create_needs_sign_in
           (CliDemo.served true Demo.anonymous Demo.service)
           (fun _ => Cli.ret tt) "cli_client.py" [] []).
  intros h'. reflexivity.
Defined.
